(** * scripts/train.py: the masked-reconstruction training step

    A shallow embedding of [model_step], [log_metrics] and the epoch loop of
    [scripts/train.py].

    Conventions of the embedding.
    - A tensor is its dtype, its device, its shape and its elements in
      row-major order.  Elements are exact rationals: every finite float and
      every integer is one.  Boolean tensors hold 0 and 1.
    - Sums of integer and boolean tensors are taken in int64 and wrap
      around, as torch's do.  Floating-point products, sums and conversions
      are kept exact: the rounding of float16 and float32 is not modelled.
      Every statement below whose truth depends on such a value is made
      for inputs on which the exact value is also the one the program
      computes: counts whose sum stays below 2^24 (2^11 for float16), where
      every partial sum, in any order, is representable ([exact_counts]).
    - Python exceptions are values of [exn]; code that can raise lives in the
      state-and-exception monad [St].  The state survives a raise, as the
      heap of the interpreter does.
    - [net], [criterion] and [masker] are the arguments of [model_step]; they
      are arbitrary computations over the ambient state [World] (parameters
      and buffers of the network, random generators, ...). *)

From Stdlib Require Import QArith Qround Qabs ZArith List Ascii String Bool.
From Stdlib Require Import Lia Lqa.
From stdpp Require Import gmap strings list fin_maps.

Local Open Scope Q_scope.
Local Open Scope string_scope.
Local Open Scope list_scope.

(** ** Exceptions and the monad *)

(** The [assert] statements of the file, by line. *)
Inductive assert_site :=
| L23_shape         (* assert X.shape == the_mask.shape *)
| L24_mask_fraction (* assert the_mask.sum() < 0.5 * the_mask.numel() *)
| L28_masked_sum    (* assert X_masked.sum() <= X.sum() *)
| L38_targets.      (* assert targets.min() >= 0, "Negative targets" *)

Inductive exn :=
| AssertionError (site : assert_site) (msg : string)
| IndexError
| RuntimeError
| NameError (name : string)
| OtherError (what : string).

Inductive result (A : Type) :=
| Ok (a : A)
| Raise (e : exn).
Arguments Ok {A} a.
Arguments Raise {A} e.

Definition St (S A : Type) : Type := S -> result A * S.

Definition ret {S A} (a : A) : St S A := fun s => (Ok a, s).

Definition bind {S A B} (c : St S A) (k : A -> St S B) : St S B :=
  fun s => match c s with
           | (Ok a, s') => k a s'
           | (Raise e, s') => (Raise e, s')
           end.

Definition raise {S A} (e : exn) : St S A := fun s => (Raise e, s).

Definition lift {S A} (r : result A) : St S A := fun s => (r, s).

Definition py_assert {S} (cond : bool) (site : assert_site) (msg : string)
  : St S unit :=
  if cond then ret tt else raise (AssertionError site msg).

Notation "x <- c ;; k" := (bind c (fun x => k))
  (at level 100, c at next level, right associativity).
Notation "c ;;; k" := (bind c (fun _ => k))
  (at level 100, right associativity).

(** ** Tensors *)

Inductive dtype :=
| torch_bool | torch_uint8 | torch_int8 | torch_int16 | torch_int32
| torch_int64 | torch_float16 | torch_float32 | torch_float64.

Inductive device := cpu | cuda | mps.

Record tensor := Tensor {
  t_dtype : dtype;
  t_device : device;
  shape : list nat;
  data : list Q
}.

Definition is_floating (d : dtype) : bool :=
  match d with
  | torch_float16 | torch_float32 | torch_float64 => true
  | _ => false
  end.

(** Position of a dtype in torch's promotion order. *)
Definition dtype_rank (d : dtype) : nat :=
  match d with
  | torch_bool => 0 | torch_uint8 => 1 | torch_int8 => 2 | torch_int16 => 3
  | torch_int32 => 4 | torch_int64 => 5 | torch_float16 => 6
  | torch_float32 => 7 | torch_float64 => 8
  end%nat.

(** [torch.promote_types]: the larger of the two, except that uint8 and int8
    meet in int16. *)
Definition promote_types (a b : dtype) : dtype :=
  match a, b with
  | torch_uint8, torch_int8 | torch_int8, torch_uint8 => torch_int16
  | _, _ => if (dtype_rank a <=? dtype_rank b)%nat then b else a
  end.

(** Number of elements of a shape: the product of its dimensions. *)
Definition prod_shape (s : list nat) : nat := foldr Nat.mul 1%nat s.

(** [t.numel()] *)
Definition numel (t : tensor) : nat := prod_shape (shape t).

(** A tensor is well formed when it holds as many elements as its shape says. *)
Definition wf_tensor (t : tensor) : Prop := length (data t) = numel t.

Definition Qsum (l : list Q) : Q := foldr Qplus 0 l.

(** The value of an integer as an int64: two's complement wrap-around. *)
Definition wrap_int64 (z : Z) : Z :=
  ((z + 2 ^ 63) mod 2 ^ 64 - 2 ^ 63)%Z.

(** [t.sum()]: a floating tensor is summed in its dtype (kept exact here),
    any other tensor in int64, where the sum wraps around. *)
Definition tsum (t : tensor) : Q :=
  match t_dtype t with
  | torch_float16 | torch_float32 | torch_float64 => Qsum (data t)
  | _ => inject_Z (wrap_int64 (Qfloor (Qsum (data t))))
  end.

Definition Qlt_bool (a b : Q) : bool := negb (Qle_bool b a).

Definition Qnonzero (q : Q) : bool := negb (Qeq_bool q 0).

(** Conversion of one element to a dtype: booleans keep whether the element
    is non-zero, integers truncate toward zero, floats keep the value (the
    source converts to float32 only; its rounding is not modelled, so the
    value is the program's where float32 holds it exactly). *)
Definition cast (d : dtype) (q : Q) : Q :=
  match d with
  | torch_bool => if Qnonzero q then 1 else 0
  | torch_float16 | torch_float32 | torch_float64 => q
  | _ => inject_Z (Z.quot (Qnum q) (Z.pos (Qden q)))
  end.

(** [t.to(dtype)] *)
Definition to_dtype (d : dtype) (t : tensor) : tensor :=
  Tensor d (t_device t) (shape t) (map (cast d) (data t)).

(** [t.to(device)] *)
Definition to_device (dev : device) (t : tensor) : tensor :=
  Tensor (t_dtype t) dev (shape t) (data t).

(** [t.to(dtype=d, device=dev)] *)
Definition to (d : dtype) (dev : device) (t : tensor) : tensor :=
  to_device dev (to_dtype d t).

(** [torch.zeros_like(t)] *)
Definition zeros_like (t : tensor) : tensor :=
  Tensor (t_dtype t) (t_device t) (shape t) (replicate (numel t) 0).

(** [1 - t] for the Python integer 1 and a tensor [t] of a floating dtype
    (the source takes it of a mask already converted to float32). *)
Definition rsub1 (t : tensor) : tensor :=
  Tensor (t_dtype t) (t_device t) (shape t) (map (fun q => 1 - q) (data t)).

(** [a * b] for two tensors of one shape (what line 23 has established where
    the product is taken) on one device, element by element, in the promoted
    dtype; the product is kept exact. *)
Definition tmul (a b : tensor) : tensor :=
  Tensor (promote_types (t_dtype a) (t_dtype b)) (t_device a) (shape a)
         (zip_with Qmult (data a) (data b)).

(** *** Indexing, [t[idx]] for a tensor [idx] *)

(** Rows of [d], each [bs] elements long, whose entry in [mask] is non-zero. *)
Fixpoint select_rows (bs : nat) (mask : list Q) (d : list Q) : list Q :=
  match mask with
  | [] => []
  | m :: mask' =>
      (if Qnonzero m then take bs d else []) ++ select_rows bs mask' (drop bs d)
  end.

Definition count_nonzero (mask : list Q) : nat :=
  length (filter (fun q => Qnonzero q = true) mask).

Definition shape_eqb (a b : list nat) : bool := bool_decide (a = b).

(** Boolean-mask indexing: the mask covers the leading dimensions of [t]. *)
Definition index_mask (t idx : tensor) : result tensor :=
  let k := length (shape idx) in
  if shape_eqb (take k (shape t)) (shape idx) then
    let rest := drop k (shape t) in
    Ok (Tensor (t_dtype t) (t_device t)
               (count_nonzero (data idx) :: rest)
               (select_rows (prod_shape rest) (data idx) (data t)))
  else Raise IndexError.

(** One integer index into an axis of length [n]: negative indices count from
    the end, anything outside [-n, n) is an error. *)
Definition normalize_index (n : nat) (q : Q) : option nat :=
  let i := Qfloor q in
  if ((0 <=? i)%Z && (i <? Z.of_nat n)%Z)%bool then Some (Z.to_nat i)
  else if ((- Z.of_nat n <=? i)%Z && (i <? 0)%Z)%bool
       then Some (Z.to_nat (i + Z.of_nat n))
       else None.

Fixpoint gather_rows (n bs : nat) (idx : list Q) (d : list Q)
  : option (list Q) :=
  match idx with
  | [] => Some []
  | q :: idx' =>
      match normalize_index n q, gather_rows n bs idx' d with
      | Some i, Some r => Some (take bs (drop (i * bs) d) ++ r)
      | _, _ => None
      end
  end.

(** Integer-array indexing along the first axis. *)
Definition index_int (t idx : tensor) : result tensor :=
  match shape t with
  | [] => Raise IndexError
  | n :: rest =>
      match gather_rows n (prod_shape rest) (data idx) (data t) with
      | Some d => Ok (Tensor (t_dtype t) (t_device t) (shape idx ++ rest) d)
      | None => Raise IndexError
      end
  end.

(** [t[idx]]: torch takes bool and uint8 tensors as masks, int32 and int64
    tensors as indices, and refuses every other dtype with an IndexError. *)
Definition getitem (t idx : tensor) : result tensor :=
  match t_dtype idx with
  | torch_bool | torch_uint8 => index_mask t idx
  | torch_int32 | torch_int64 => index_int t idx
  | _ => Raise IndexError
  end.

(** ** Scalars and the loss *)

(** A Python float: a finite value or nan. *)
Inductive scalar :=
| Finite (q : Q)
| NaN.

(** [nn.MSELoss(reduce=True)]: the mean of the squared differences, nan over
    an empty selection.  Torch broadcasts operands of different shapes where
    it can; that case is left out (one mask indexes both operands of the
    loss in [model_step]) and reported as an error here. *)
Definition MSELoss (input target : tensor) : result scalar :=
  if shape_eqb (shape input) (shape target) then
    match data input with
    | [] => Ok NaN
    | _ =>
        Ok (Finite (Qsum (zip_with (fun p x => (p - x) * (p - x))
                                   (data input) (data target))
                    / inject_Z (Z.of_nat (length (data input)))))
    end
  else Raise (OtherError "broadcast not modelled").

(** ** [model_step] *)

Section ModelStep.
Context {World Aux : Type}.

Definition step_result : Type := scalar * tensor * tensor * tensor * tensor.

(** Lines 18-21: the mask of the step. *)
Definition make_mask (masker : tensor -> St World tensor) (X : tensor)
           (masking : bool) : St World tensor :=
  if masking then masker X else ret (zeros_like X).

(** Line 27: [X * (1 - the_mask.to(torch.float32))]. *)
Definition mask_input (X the_mask : tensor) : tensor :=
  tmul X (rsub1 (to_dtype torch_float32 the_mask)).

(** Lines 30-34: the forward pass, the two selections and the loss. *)
Definition score (net : tensor -> St World tensor)
           (criterion : tensor -> tensor -> St World scalar)
           (X X_masked the_mask rate : tensor) (dev : device)
  : St World step_result :=
  X_smoothed <- net (to torch_float32 dev X_masked) ;;
  input <- lift (getitem X_smoothed the_mask) ;;
  target <- lift (getitem X the_mask) ;;
  loss <- criterion (to torch_float32 dev input) (to torch_float32 dev target) ;;
  ret (loss, X_smoothed, X, the_mask, rate).

(** Lines 26-34: what [model_step] does once the mask has passed the
    assertions of lines 23 and 24. *)
Definition reconstruct (net : tensor -> St World tensor)
           (criterion : tensor -> tensor -> St World scalar)
           (X the_mask rate : tensor) (dev : device)
  : St World step_result :=
  let X_masked := mask_input X the_mask in
  py_assert (Qle_bool (tsum X_masked) (tsum X)) L28_masked_sum "" ;;;
  score net criterion X X_masked the_mask rate dev.

Definition model_step (net : tensor -> St World tensor)
           (criterion : tensor -> tensor -> St World scalar)
           (masker : tensor -> St World tensor)
           (batch : tensor * tensor * Aux * Aux)
           (dev : device) (masking : bool)
  : St World step_result :=
  let '(X, rate, _, _) := batch in
  let rate := to_device dev rate in
  the_mask <- make_mask masker X masking ;;
  py_assert (shape_eqb (shape X) (shape the_mask)) L23_shape "" ;;;
  py_assert (Qlt_bool (tsum the_mask)
                      ((1 # 2) * inject_Z (Z.of_nat (numel the_mask))))
            L24_mask_fraction "" ;;;
  reconstruct net criterion X the_mask rate dev.

End ModelStep.

(** ** Inputs on which the program's arithmetic is exact *)

(** A spike count: a non-negative integer. *)
Definition is_count (x : Q) : Prop :=
  exists n : Z, (0 <= n)%Z /\ x == inject_Z n.

(** Below this bound every integer is a value of the dtype the sum of a
    tensor of dtype [d] is taken in, and of float32, in which the masked
    input is summed: 2^11 for float16, 2^24 otherwise. *)
Definition sum_bound (d : dtype) : Z :=
  match d with
  | torch_float16 => 2 ^ 11
  | _ => 2 ^ 24
  end%Z.

(** Counts whose sum stays below the bound.  On such a tensor lines 27 and
    28 round nothing and wrap nothing, in whatever order the sums are
    taken. *)
Definition exact_counts (t : tensor) : Prop :=
  Forall is_count (data t) /\
  Qsum (data t) < inject_Z (sum_bound (t_dtype t)).

(** The elements of [d] at the positions where [mask] is set, in order:
    what the spec calls the masked positions. *)
Definition masked_values (mask d : list Q) : list Q :=
  map fst (filter (fun p => Qnonzero (snd p) = true) (zip d mask)).

(** ** Reductions used by [log_metrics] *)

Definition Qmin (a b : Q) : Q := if Qle_bool a b then a else b.

(** [t.min()]: torch refuses an empty tensor. *)
Definition tmin (t : tensor) : result Q :=
  match data t with
  | [] => Raise RuntimeError
  | x :: l => Ok (foldr Qmin x l)
  end.

(** [t.mean()]: torch refuses the integer and boolean dtypes; the mean of no
    element is nan. *)
Definition tmean (t : tensor) : result scalar :=
  if is_floating (t_dtype t) then
    match data t with
    | [] => Ok NaN
    | l => Ok (Finite (Qsum l / inject_Z (Z.of_nat (length l))))
    end
  else Raise RuntimeError.

(** The unbiased variance behind [t.std()]. *)
Definition variance (l : list Q) : Q :=
  let n := inject_Z (Z.of_nat (length l)) in
  let mu := Qsum l / n in
  Qsum (map (fun x => (x - mu) * (x - mu)) l) / (n - 1).

(** ** The summary writer and the module's global names *)

Inductive event :=
| add_scalar (tag : string) (value : scalar) (global_step : nat)
| add_image (tag : string) (img : tensor) (global_step : nat).

(** [SummaryWriter(log_dir)]: its directory and what was written to it, in
    order. *)
Record SummaryWriter := Writer {
  log_dir : string;
  events : list event
}.

(** [logger.add_scalar(...)], [logger.add_image(...)] *)
Definition write (e : event) : St SummaryWriter unit :=
  fun lg => (Ok tt, Writer (log_dir lg) (events lg ++ [e])).

(** The names that the block under [if __name__ == "__main__"] binds at
    module level and later reads; [None] is a name not bound yet. *)
Record module_globals := Globals {
  g_loss : option scalar;
  g_preds : option tensor;
  g_targets : option tensor;
  g_the_mask : option tensor;
  g_rate : option tensor
}.

Definition no_globals : module_globals := Globals None None None None None.

(** Reading a name in global scope. *)
Definition load_global {A} (name : string) (v : option A) : result A :=
  match v with
  | Some a => Ok a
  | None => Raise (NameError name)
  end.

(** ** [log_metrics] *)

Section LogMetrics.
(** The (rounded) square root of [torch.std]. *)
Variable sqrt : Q -> Q.

(** [t.std()]: floating dtypes only; nan below two elements. *)
Definition tstd (t : tensor) : result scalar :=
  if is_floating (t_dtype t) then
    match data t with
    | [] | [_] => Ok NaN
    | l => Ok (Finite (sqrt (variance l)))
    end
  else Raise RuntimeError.

(** [logger] is the state of the monad; [globals] is the module scope in
    which the body looks up [loss], a name that is neither a parameter nor
    a local. *)
Definition log_metrics (globals : module_globals)
           (preds targets mask : tensor) (prefix : string) (epoch : nat)
  : St SummaryWriter unit :=
  least <- lift (tmin targets) ;;
  py_assert (Qle_bool 0 least) L38_targets "Negative targets" ;;;
  loss <- lift (load_global "loss" (g_loss globals)) ;;
  write (add_scalar (prefix ++ "/loss") loss epoch) ;;;
  mean_preds <- lift (tmean preds) ;;
  write (add_scalar (prefix ++ "/mean_preds") mean_preds epoch) ;;;
  std_preds <- lift (tstd preds) ;;
  write (add_scalar (prefix ++ "/std_preds") std_preds epoch) ;;;
  mean_targets <- lift (tmean (to_dtype torch_float32 targets)) ;;
  write (add_scalar (prefix ++ "/mean_targets") mean_targets epoch) ;;;
  std_targets <- lift (tstd (to_dtype torch_float32 targets)) ;;
  write (add_scalar (prefix ++ "/std_targets") std_targets epoch) ;;;
  mean_mask <- lift (tmean (to_dtype torch_float32 mask)) ;;
  write (add_scalar (prefix ++ "/mean_mask") mean_mask epoch).

End LogMetrics.

(** ** The script under [if __name__ == "__main__"] *)

(** [os.path.join(a, b)] on a POSIX system. *)
Fixpoint ends_with_sep (s : string) : bool :=
  match s with
  | EmptyString => false
  | String c EmptyString => Ascii.eqb c "/"%char
  | String _ s' => ends_with_sep s'
  end.

Definition os_path_join (a b : string) : string :=
  if String.prefix "/" b then b
  else if (String.eqb a "" || ends_with_sep a)%bool then a ++ b
       else a ++ "/" ++ b.

(** [t[-1]]: the last row along the first axis. *)
Definition last_row (t : tensor) : result tensor :=
  match shape t with
  | [] => Raise IndexError
  | O :: _ => Raise IndexError
  | S n :: rest =>
      Ok (Tensor (t_dtype t) (t_device t) rest
                 (drop (n * prod_shape rest) (data t)))
  end.

(** Python's [for i, x in enumerate(xs)], counting from [i]. *)
Fixpoint for_enumerate {T A} (i : nat) (xs : list A)
         (body : nat -> A -> St T unit) : St T unit :=
  match xs with
  | [] => ret tt
  | x :: xs' => body i x ;;; for_enumerate (S i) xs' body
  end.

(** [with ctx: body]: [leave] runs however [body] ends. *)
Definition with_context {S A} (enter leave : St S unit) (body : St S A)
  : St S A :=
  enter ;;;
  (fun s => match body s with
            | (r, s1) =>
                match leave s1 with
                | (Ok _, s2) => (r, s2)
                | (Raise e, s2) => (Raise e, s2)
                end
            end).

Section Script.
(** What the script takes from torch and from the modules [src.cnn],
    [src.mask] and [src.dataset], none of which is part of this file:
    the state they work on and the operations the script calls. *)
Context {World Aux StateDict : Type}.
Variable net : tensor -> St World tensor.          (* cnn.CNN(29, 10) *)
Variable net_train net_eval : St World unit.       (* net.train(), net.eval() *)
Variable state_dict : World -> StateDict.          (* net.state_dict() *)
Variable masker : tensor -> St World tensor.       (* mask.Masker() *)
Variable train_loader : St World (list (tensor * tensor * Aux * Aux)).
Variable val_loader : St World (list (tensor * tensor * Aux * Aux)).
Variable zero_grad optimizer_step : St World unit. (* torch.optim.Adam *)
Variable backward : scalar -> St World unit.       (* loss.backward() *)
Variable no_grad_enter no_grad_exit : St World unit.
Variable r2_of : tensor -> tensor -> result scalar. (* corrcoef(...)[0, 1] ** 2 *)
Variable sqrt : Q -> Q.
Variable learning_rate : Q.                        (* float(sys.argv[1]) *)
Variable str : Q -> string.                        (* str(learning_rate) *)
Variable dev : device.

Definition num_epochs : nat := 100.

(** [criterion = nn.MSELoss(reduce=True)] *)
Definition criterion (input target : tensor) : St World scalar :=
  lift (MSELoss input target).

(** Everything the script reads and writes. *)
Record script := Script {
  world : World;                   (* torch: parameters, optimizer, generators *)
  globals : module_globals;
  logger : SummaryWriter;
  files : gmap string StateDict    (* checkpoints on disk *)
}.

(** The two views of the state that only the creation of the writer and
    line 124 decide. *)
Definition disk_of (st : script) : gmap string StateDict := files st.
Definition dir_of (st : script) : string := log_dir (logger st).

Definition in_world {A} (c : St World A) : St script A :=
  fun st => match c (world st) with
            | (r, w) => (r, Script w (globals st) (logger st) (files st))
            end.

Definition in_logger {A} (c : St SummaryWriter A) : St script A :=
  fun st => match c (logger st) with
            | (r, lg) => (r, Script (world st) (globals st) lg (files st))
            end.

Definition get_globals : St script module_globals :=
  fun st => (Ok (globals st), st).

Definition set_globals (g : module_globals) : St script unit :=
  fun st => (Ok tt, Script (world st) g (logger st) (files st)).

(** [loss, preds, targets, the_mask, rate = model_step(...)] *)
Definition bind_step (r : step_result) : St script unit :=
  let '(loss, preds, targets, the_mask, rate) := r in
  set_globals (Globals (Some loss) (Some preds) (Some targets)
                       (Some the_mask) (Some rate)).

(** [_, preds, targets, the_mask, rate = model_step(...)] *)
Definition bind_step_but_loss (r : step_result) : St script unit :=
  let '(_, preds, targets, the_mask, rate) := r in
  g <- get_globals ;;
  set_globals (Globals (g_loss g) (Some preds) (Some targets)
                       (Some the_mask) (Some rate)).

(** [log_metrics(preds, targets, the_mask, logger, prefix, total_epoch)] *)
Definition call_log_metrics (prefix : string) (total_epoch : nat)
  : St script unit :=
  g <- get_globals ;;
  preds <- lift (load_global "preds" (g_preds g)) ;;
  targets <- lift (load_global "targets" (g_targets g)) ;;
  the_mask <- lift (load_global "the_mask" (g_the_mask g)) ;;
  in_logger (log_metrics sqrt g preds targets the_mask prefix total_epoch).

(** The four [logger.add_image(prefix/..., t[-1], global_step=epoch)]. *)
Definition log_images (prefix : string) (epoch : nat) : St script unit :=
  g <- get_globals ;;
  preds <- lift (load_global "preds" (g_preds g)) ;;
  img <- lift (last_row preds) ;;
  in_logger (write (add_image (prefix ++ "/preds") img epoch)) ;;;
  targets <- lift (load_global "targets" (g_targets g)) ;;
  img <- lift (last_row targets) ;;
  in_logger (write (add_image (prefix ++ "/targets") img epoch)) ;;;
  the_mask <- lift (load_global "the_mask" (g_the_mask g)) ;;
  img <- lift (last_row the_mask) ;;
  in_logger (write (add_image (prefix ++ "/the_mask") img epoch)) ;;;
  rate <- lift (load_global "rate" (g_rate g)) ;;
  img <- lift (last_row rate) ;;
  in_logger (write (add_image (prefix ++ "/rate") img epoch)).

(** Lines 80-89: one training batch. *)
Definition train_batch (epoch len_loader batch_num : nat)
           (batch : tensor * tensor * Aux * Aux) : St script unit :=
  in_world zero_grad ;;;
  r <- in_world (model_step net criterion masker batch dev true) ;;
  bind_step r ;;;
  g <- get_globals ;;
  loss <- lift (load_global "loss" (g_loss g)) ;;
  in_world (backward loss) ;;;
  in_world optimizer_step ;;;
  let total_epoch := (epoch * len_loader + batch_num)%nat in
  call_log_metrics "train" total_epoch.

(** Lines 100-115: one validation batch. *)
Definition val_batch (epoch len_loader batch_num : nat)
           (batch : tensor * tensor * Aux * Aux) : St script unit :=
  let total_epoch := (epoch * len_loader + batch_num)%nat in
  r <- in_world (model_step net criterion masker batch dev false) ;;
  bind_step r ;;;
  call_log_metrics "val" total_epoch ;;;
  (* [if rate is not None]: [rate] is the tensor the step returned *)
  r <- in_world (model_step net criterion masker batch dev false) ;;
  bind_step_but_loss r ;;;
  g <- get_globals ;;
  preds <- lift (load_global "preds" (g_preds g)) ;;
  rate <- lift (load_global "rate" (g_rate g)) ;;
  r2 <- lift (r2_of preds rate) ;;
  in_logger (write (add_scalar "val/r2" r2 total_epoch)).

(** Lines 77-121: an epoch up to, and without, the checkpoint. *)
Definition train_and_validate (epoch : nat) : St script unit :=
  in_world net_train ;;;
  batches <- in_world train_loader ;;
  for_enumerate 0 batches (train_batch epoch (length batches)) ;;;
  log_images "train" epoch ;;;
  in_world net_eval ;;;
  with_context (in_world no_grad_enter) (in_world no_grad_exit)
    (batches <- in_world val_loader ;;
     for_enumerate 0 batches (val_batch epoch (length batches))) ;;;
  log_images "val" epoch.

(** Line 124: [torch.save(net.state_dict(),
    os.path.join(logger.get_logdir(), f"model.pt"))]. *)
Definition save_checkpoint : St script unit :=
  fun st =>
    let path := os_path_join (log_dir (logger st)) "model.pt" in
    (Ok tt, Script (world st) (globals st) (logger st)
                   (<[path := state_dict (world st)]> (files st))).

(** Lines 76-124: the body of [for epoch in range(num_epochs)]. *)
Definition epoch_body (epoch : nat) : St script unit :=
  train_and_validate epoch ;;;
  save_checkpoint.

(** The loop over the first [n] epochs. *)
Definition run_epochs (n : nat) : St script unit :=
  for_enumerate 0 (seq 0 n) (fun _ epoch => epoch_body epoch).

(** The state in which the loop starts:
    [logger = SummaryWriter('Learning_rate=' + str(learning_rate))], no
    name of the loop bound yet, the disk as it is found. *)
Definition start (w : World) (disk : gmap string StateDict) : script :=
  Script w no_globals (Writer ("Learning_rate=" ++ str learning_rate) [])
         disk.

Definition main : St script unit := run_epochs num_epochs.

End Script.

(** The elements of a mask of length [n] true at position [i] only. *)
Definition one_hot (n i : nat) : list Q := <[i := 1]> (replicate n 0).

(** ** Small concrete runs *)

(** A batch of three spike counts, its rate, and a mask on the first count. *)
Definition X3 : tensor := Tensor torch_int64 cpu [3%nat] [3; 1; 2].
Definition rate3 : tensor := Tensor torch_float32 cpu [3%nat] [1 # 2; 1; 3 # 2].
Definition mask3 : tensor := Tensor torch_bool cpu [3%nat] [1; 0; 0].

(** The same counts stored as floats, and a mask over two of the three. *)
Definition X3_float : tensor := to_dtype torch_float32 X3.
Definition mask3_wide : tensor := Tensor torch_bool cpu [3%nat] [1; 1; 0].

(** What the step returns on [batch3] with the first count masked: the
    identity model sees a zero there. *)
Definition preds3 : tensor := Tensor torch_float32 cpu [3%nat] [0; 1; 2].

Definition batch3 : tensor * tensor * unit * unit := (X3, rate3, tt, tt).
Definition batch3_float : tensor * tensor * unit * unit :=
  (X3_float, rate3, tt, tt).

(** A model that returns its input, over a state it does not use. *)
Definition identity_net {W} (t : tensor) : St W tensor := ret t.
Definition mse {W} (input target : tensor) : St W scalar :=
  lift (MSELoss input target).
Definition fixed_masker {W} (m : tensor) (_ : tensor) : St W tensor := ret m.

(** A model with one parameter [p], which scales its input by [p], and a
    counter of forward passes. *)
Definition scaling_net (t : tensor) : St (Q * nat) tensor :=
  fun '(p, calls) =>
    (Ok (Tensor (t_dtype t) (t_device t) (shape t) (map (Qmult p) (data t))),
     (p, S calls)).

(** A masking policy that always hides the first element. *)
Definition first_masker {W} (X : tensor) : St W tensor :=
  ret (Tensor torch_bool (t_device X) (shape X) (one_hot (numel X) 0)).

(** A toy instance of the script: the state of torch is the number of
    optimizer steps taken, which is also what [state_dict] stores. *)
Definition toy_sqrt (q : Q) : Q := inject_Z (Z.sqrt (Qfloor q)).
Definition toy_str (_ : Q) : string := "0.001".
Definition toy_r2 (_ _ : tensor) : result scalar := Ok (Finite 1).
Definition toy_optimizer_step : St nat unit := fun w => (Ok tt, S w).

Definition toy_run (n : nat) : St (@script nat nat) unit :=
  run_epochs (Aux:=unit) identity_net (ret tt) (ret tt) (fun w => w)
    first_masker (ret [batch3]) (ret [batch3]) (ret tt) toy_optimizer_step
    (fun _ => ret tt) (ret tt) (ret tt) toy_r2 toy_sqrt cpu n.

Definition toy_start : @script nat nat := start (1 # 1000) toy_str 0%nat ∅.

Definition toy_globals : module_globals :=
  Globals (Some (Finite 9)) None None None None.

Definition toy_writer : SummaryWriter := Writer "Learning_rate=0.001" [].

(** More inputs: an empty batch, a mask that hides nothing, a batch of two
    rows, counts with a negative entry, counts whose int64 sum wraps. *)
Definition X_empty : tensor := Tensor torch_int64 cpu [0%nat] [].
Definition mask3_none : tensor := Tensor torch_bool cpu [3%nat] [0; 0; 0].
Definition X22 : tensor := Tensor torch_int64 cpu [2%nat; 2%nat] [3; 1; 2; 5].
Definition rate22 : tensor :=
  Tensor torch_float32 cpu [2%nat; 2%nat] [1; 1; 1; 1].
Definition X3_negative : tensor := Tensor torch_int64 cpu [3%nat] [3; -1; 2].
Definition X3_wrap : tensor :=
  Tensor torch_int64 cpu [3%nat]
         [4611686018427387904; 4611686018427387904; 1].

(** A model that keeps the first two elements of its input and returns 7
    everywhere else. *)
Definition first_row_net {W} (t : tensor) : St W tensor :=
  ret (Tensor (t_dtype t) (t_device t) (shape t)
              (take 2 (data t) ++ replicate (length (data t) - 2) 7)).

(** A model that adds 1 to the first element of its input. *)
Definition bump_net {W} (t : tensor) : St W tensor :=
  ret (Tensor (t_dtype t) (t_device t) (shape t)
              (match data t with
               | [] => []
               | x :: rest => (x + 1) :: rest
               end)).

(** The toy script over given training and validation batches. *)
Definition toy_epoch_body (train val : list (tensor * tensor * unit * unit))
           (epoch : nat) : St (@script nat nat) unit :=
  epoch_body (Aux:=unit) identity_net (ret tt) (ret tt) (fun w => w)
    first_masker (ret train) (ret val) (ret tt) toy_optimizer_step
    (fun _ => ret tt) (ret tt) (ret tt) toy_r2 toy_sqrt cpu epoch.

Definition toy_run_on (train val : list (tensor * tensor * unit * unit))
           (n : nat) : St (@script nat nat) unit :=
  run_epochs (Aux:=unit) identity_net (ret tt) (ret tt) (fun w => w)
    first_masker (ret train) (ret val) (ret tt) toy_optimizer_step
    (fun _ => ret tt) (ret tt) (ret tt) toy_r2 toy_sqrt cpu n.

(** The validation batch of the loop, over a network with one parameter. *)
Definition toy_val_batch : St (@script (Q * nat) nat) unit :=
  val_batch (Aux:=unit) scaling_net first_masker toy_r2 toy_sqrt cpu
            0 1 0 batch3.

(** ** Frame conditions *)

(** [c] leaves the view [f] of the state as it found it, however it ends. *)
Definition preserves {S V A} (f : S -> V) (c : St S A) : Prop :=
  forall s, f (snd (c s)) = f s.

(** A computation on the writer that only appends records. *)
Definition appends {A} (c : St SummaryWriter A) : Prop :=
  forall lg, exists rest,
    snd (c lg) = Writer (log_dir lg) (events lg ++ rest).

(** * Properties *)

(** ** Running the monad *)

Lemma bind_Ok_inv {S A B} (c : St S A) (k : A -> St S B) s b s' :
  bind c k s = (Ok b, s') ->
  exists a s1, c s = (Ok a, s1) /\ k a s1 = (Ok b, s').
Proof.
  unfold bind. destruct (c s) as [[a|e] s1]; intros H.
  - exists a, s1. split; [reflexivity | exact H].
  - discriminate H.
Qed.

Lemma bind_Ok_run {S A B} (c : St S A) (k : A -> St S B) s a s1 :
  c s = (Ok a, s1) -> bind c k s = k a s1.
Proof. unfold bind. intros ->. reflexivity. Qed.

Lemma bind_Raise_run {S A B} (c : St S A) (k : A -> St S B) s e s1 :
  c s = (Raise e, s1) -> bind c k s = (Raise e, s1).
Proof. unfold bind. intros ->. reflexivity. Qed.

Lemma py_assert_Ok_inv {S} cond site msg (s s' : S) u :
  py_assert cond site msg s = (Ok u, s') -> cond = true /\ s' = s.
Proof.
  unfold py_assert. destruct cond; cbn; intros H.
  - inversion H. split; reflexivity.
  - discriminate H.
Qed.

Lemma lift_Ok_inv {S A} (r : result A) (s s' : S) a :
  lift r s = (Ok a, s') -> r = Ok a /\ s' = s.
Proof. unfold lift. intros H. inversion H. split; reflexivity. Qed.

Lemma ret_Ok_inv {S A} (x a : A) (s s' : S) :
  ret x s = (Ok a, s') -> a = x /\ s' = s.
Proof. unfold ret. intros H. inversion H. split; reflexivity. Qed.

(** Inverts a completed run, one statement of the source at a time. *)
Tactic Notation "step_inv" hyp(H) "as" ident(a) ident(s) ident(H1) :=
  apply bind_Ok_inv in H; destruct H as (a & s & H1 & H).

(** ** Comparisons and sums of rationals *)

Lemma Qlt_bool_iff (a b : Q) : Qlt_bool a b = true <-> a < b.
Proof.
  unfold Qlt_bool. rewrite negb_true_iff. split.
  - intros H. apply Qnot_le_lt. intros Hle.
    apply Qle_bool_iff in Hle. congruence.
  - intros H. destruct (Qle_bool b a) eqn:E; [|reflexivity].
    apply Qle_bool_iff in E. exfalso. exact (Qlt_not_le _ _ H E).
Qed.

Lemma Qlt_bool_false_iff (a b : Q) : Qlt_bool a b = false <-> b <= a.
Proof.
  unfold Qlt_bool. rewrite negb_false_iff. apply Qle_bool_iff.
Qed.

Lemma Qsum_nonneg (l : list Q) : Forall (fun x => 0 <= x) l -> 0 <= Qsum l.
Proof.
  induction 1 as [|x l Hx _ IH]; cbn.
  - apply Qle_refl.
  - unfold Qsum in IH. lra.
Qed.

Lemma cast_float32_data (l : list Q) : map (cast torch_float32) l = l.
Proof. induction l as [|q l IH]; cbn; [|rewrite IH]; reflexivity. Qed.

(** Zeroing some of the elements of a non-negative list cannot raise its sum. *)
Lemma Qsum_masked_le (xs ms : list Q) :
  Forall (fun x => 0 <= x) xs ->
  Forall (fun m => m == 0 \/ m == 1) ms ->
  Qsum (zip_with Qmult xs (map (fun q => 1 - q) ms)) <= Qsum xs.
Proof.
  intros Hxs. revert ms. induction Hxs as [|x xs Hx Hxs IH]; intros ms Hms.
  - cbn. apply Qle_refl.
  - destruct Hms as [|m ms Hm Hms].
    + cbn. pose proof (Qsum_nonneg xs Hxs) as H0. unfold Qsum in H0. lra.
    + specialize (IH ms Hms). cbn. unfold Qsum in IH.
      assert (x * (1 - m) <= x) as Hle.
      { destruct Hm as [Hm|Hm]; rewrite Hm; lra. }
      lra.
Qed.

(** ** Boolean-mask selection *)

(** Two element lists that agree wherever the mask is set select the same
    elements. *)
Lemma select_rows_agree (mask d d' : list Q) :
  length d = length d' ->
  (forall i m, mask !! i = Some m -> Qnonzero m = true -> d !! i = d' !! i) ->
  select_rows 1 mask d = select_rows 1 mask d'.
Proof.
  revert d d'. induction mask as [|m mask IH]; intros d d' Hlen Hagree.
  - reflexivity.
  - cbn [select_rows]. f_equal.
    + destruct (Qnonzero m) eqn:Hm; [|reflexivity].
      specialize (Hagree 0%nat m eq_refl Hm).
      destruct d as [|x d], d' as [|x' d']; simplify_eq/=; reflexivity.
    + apply IH.
      * rewrite !length_drop. lia.
      * intros i m' Hi Hm'. rewrite !lookup_drop.
        apply (Hagree (S i) m' Hi Hm').
Qed.

(** ** Masks with a single position set *)

Lemma one_hot_split (n i : nat) :
  (i < n)%nat -> one_hot n i = replicate i 0 ++ 1 :: replicate (n - S i) 0.
Proof. intros Hi. unfold one_hot. apply insert_replicate_lt. exact Hi. Qed.

Lemma Qsum_app (a b : list Q) : Qsum (a ++ b) == Qsum a + Qsum b.
Proof.
  unfold Qsum. induction a as [|x a IH]; cbn.
  - lra.
  - rewrite IH. lra.
Qed.

Lemma Qsum_zeros (n : nat) : Qsum (replicate n 0) == 0.
Proof.
  induction n as [|n IH]; cbn; [reflexivity|].
  unfold Qsum in IH. rewrite IH. reflexivity.
Qed.

Lemma Qsum_one_hot (n i : nat) : (i < n)%nat -> Qsum (one_hot n i) == 1.
Proof.
  intros Hi. rewrite (one_hot_split n i Hi), Qsum_app. cbn.
  pose proof (Qsum_zeros i) as H1. pose proof (Qsum_zeros (n - S i)) as H2.
  unfold Qsum in *. rewrite H1, H2. reflexivity.
Qed.

Lemma select_rows_zeros (k : nat) (d : list Q) :
  select_rows 1 (replicate k 0) d = [].
Proof.
  revert d. induction k as [|k IH]; intros d; [reflexivity|].
  cbn [replicate select_rows]. rewrite IH. reflexivity.
Qed.

Lemma select_rows_single (ds es : list Q) (e : Q) (k : nat) :
  select_rows 1 (replicate (length ds) 0 ++ 1 :: replicate k 0)
              (ds ++ e :: es) = [e].
Proof.
  induction ds as [|x ds IH].
  - cbn [length replicate app select_rows]. rewrite select_rows_zeros.
    reflexivity.
  - cbn [length replicate app select_rows]. exact IH.
Qed.

Lemma count_nonzero_zeros (k : nat) : count_nonzero (replicate k 0) = 0%nat.
Proof. induction k as [|k IH]; [reflexivity|exact IH]. Qed.

Lemma count_nonzero_single (a k : nat) :
  count_nonzero (replicate a 0 ++ 1 :: replicate k 0) = 1%nat.
Proof.
  induction a as [|a IH].
  - cbn [replicate app]. change (S (count_nonzero (replicate k 0)) = 1%nat).
    rewrite count_nonzero_zeros. reflexivity.
  - exact IH.
Qed.

(** Indexing by a boolean mask of the tensor's shape that is set at one
    position yields that one element. *)
Lemma getitem_single (t m : tensor) (ds es : list Q) (e : Q) :
  t_dtype m = torch_bool ->
  shape m = shape t ->
  data t = ds ++ e :: es ->
  data m = replicate (length ds) 0 ++ 1 :: replicate (length es) 0 ->
  getitem t m = Ok (Tensor (t_dtype t) (t_device t) [1%nat] [e]).
Proof.
  intros Hdt Hsh Hd Hm. unfold getitem, index_mask. rewrite Hdt, Hsh.
  rewrite take_ge by lia.
  unfold shape_eqb. rewrite bool_decide_eq_true_2 by reflexivity.
  rewrite drop_all, Hm, Hd, count_nonzero_single. cbn [prod_shape foldr].
  rewrite select_rows_single. reflexivity.
Qed.

(** The input with one position zeroed, split at that position. *)
Lemma mask_single_data (ds es : list Q) (e : Q) :
  zip_with Qmult (ds ++ e :: es)
    (map (fun q => 1 - q)
         (replicate (length ds) 0 ++ 1 :: replicate (length es) 0))
  = zip_with Qmult ds (map (fun q => 1 - q) (replicate (length ds) 0))
    ++ e * (1 - 1)
    :: zip_with Qmult es (map (fun q => 1 - q) (replicate (length es) 0)).
Proof.
  rewrite map_app. cbn [map].
  rewrite zip_with_app; [reflexivity|].
  rewrite length_map, length_replicate. reflexivity.
Qed.

Lemma Qsum_unmasked (es : list Q) :
  Qsum (zip_with Qmult es (map (fun q => 1 - q) (replicate (length es) 0)))
  == Qsum es.
Proof.
  induction es as [|x es IH]; cbn; [reflexivity|].
  unfold Qsum in IH. rewrite IH. lra.
Qed.

(** ** Sums that the program computes exactly *)

Lemma wrap_int64_small (z : Z) :
  (- 2 ^ 63 <= z < 2 ^ 63)%Z -> wrap_int64 z = z.
Proof.
  intros Hz. unfold wrap_int64.
  rewrite Z.mod_small; [lia|].
  change (2 ^ 64)%Z with (2 * 2 ^ 63)%Z. lia.
Qed.

Lemma promote_float32_floating (d : dtype) :
  is_floating (promote_types d torch_float32) = true.
Proof. destruct d; reflexivity. Qed.

Lemma tsum_floating (t : tensor) :
  is_floating (t_dtype t) = true -> tsum t = Qsum (data t).
Proof.
  unfold tsum. destruct (t_dtype t); intros H; try discriminate H; reflexivity.
Qed.

(** A sum that is an integer of 64 bits is what [t.sum()] returns. *)
Lemma tsum_exact (t : tensor) (n : Z) :
  Qsum (data t) == inject_Z n -> (- 2 ^ 63 <= n < 2 ^ 63)%Z ->
  tsum t == inject_Z n.
Proof.
  intros Hsum Hn.
  assert (inject_Z (wrap_int64 (Qfloor (Qsum (data t)))) == inject_Z n) as Hw.
  { rewrite Hsum, Qfloor_Z, (wrap_int64_small n Hn). reflexivity. }
  unfold tsum. destruct (t_dtype t); assumption.
Qed.

Lemma tsum_mask_input (X the_mask : tensor) :
  tsum (mask_input X the_mask)
  = Qsum (zip_with Qmult (data X) (map (fun q => 1 - q) (data the_mask))).
Proof.
  rewrite tsum_floating by apply promote_float32_floating.
  unfold mask_input. cbn. rewrite cast_float32_data. reflexivity.
Qed.

Lemma is_count_nonneg (x : Q) : is_count x -> 0 <= x.
Proof.
  intros (n & Hn & ->). change 0 with (inject_Z 0). rewrite <- Zle_Qle.
  exact Hn.
Qed.

Lemma counts_nonneg (l : list Q) :
  Forall is_count l -> Forall (fun x => 0 <= x) l.
Proof.
  intros H. eapply Forall_impl; [exact H|exact is_count_nonneg].
Qed.

Lemma counts_Qsum (l : list Q) :
  Forall is_count l -> exists n, (0 <= n)%Z /\ Qsum l == inject_Z n.
Proof.
  induction 1 as [|x l (m & Hm & Hx) _ (n & Hn & IH)].
  - exists 0%Z. split; [lia|reflexivity].
  - exists (m + n)%Z. split; [lia|].
    cbn. unfold Qsum in IH. rewrite IH, Hx, inject_Z_plus. reflexivity.
Qed.

Lemma sum_bound_int64 (d : dtype) : (sum_bound d < 2 ^ 63)%Z.
Proof. destruct d; reflexivity. Qed.

(** On counts within the bound [X.sum()] is the sum of the counts. *)
Lemma exact_counts_tsum (X : tensor) :
  exact_counts X -> tsum X == Qsum (data X).
Proof.
  intros [Hc Hb]. destruct (counts_Qsum _ Hc) as (n & Hn & Hsum).
  rewrite Hsum. apply tsum_exact; [exact Hsum|].
  rewrite Hsum, <- Zlt_Qlt in Hb. pose proof (sum_bound_int64 (t_dtype X)).
  lia.
Qed.

Lemma tsum_zeros (t : tensor) (k : nat) :
  data t = replicate k 0 -> tsum t == 0.
Proof.
  intros Hd. change 0 with (inject_Z 0). apply tsum_exact.
  - rewrite Hd. apply Qsum_zeros.
  - split; [discriminate|reflexivity].
Qed.

(** ** Integer indexing by a tensor of zeros *)

Lemma normalize_index_zero (n : nat) :
  (0 < n)%nat -> normalize_index n 0 = Some 0%nat.
Proof.
  intros Hn. unfold normalize_index.
  change (Qfloor 0) with 0%Z. cbn [Z.leb Z.compare andb].
  destruct (0 <? Z.of_nat n)%Z eqn:E; [reflexivity|].
  apply Z.ltb_ge in E. lia.
Qed.

Lemma normalize_index_empty_axis (q : Q) : normalize_index 0 q = None.
Proof.
  unfold normalize_index. change (Z.of_nat 0) with 0%Z.
  change (- 0)%Z with 0%Z.
  destruct (Z.leb_spec 0 (Qfloor q)), (Z.ltb_spec (Qfloor q) 0); cbn;
    try reflexivity; lia.
Qed.

(** Every zero index selects row 0. *)
Lemma gather_rows_zeros (n bs k : nat) (d : list Q) :
  (0 < n)%nat ->
  gather_rows n bs (replicate k 0) d
  = Some (concat (replicate k (take bs d))).
Proof.
  intros Hn. induction k as [|k IH]; [reflexivity|].
  cbn [replicate gather_rows concat].
  rewrite (normalize_index_zero n Hn), IH. reflexivity.
Qed.

Lemma length_concat_replicate (k : nat) (row : list Q) :
  length (concat (replicate k row)) = (k * length row)%nat.
Proof.
  induction k as [|k IH]; [reflexivity|].
  cbn [replicate concat]. rewrite length_app, IH. reflexivity.
Qed.

(** [t[zeros]] for an int32 or int64 tensor of zeros [idx]: row 0 of [t],
    once per index, provided the first axis of [t] is not empty. *)
Lemma index_int_zeros (t idx : tensor) (n k : nat) (rest : list nat) :
  shape t = n :: rest -> (0 < n)%nat -> data idx = replicate k 0 ->
  index_int t idx
  = Ok (Tensor (t_dtype t) (t_device t) (shape idx ++ rest)
               (concat (replicate k (take (prod_shape rest) (data t))))).
Proof.
  intros Hsh Hn Hd. unfold index_int. rewrite Hsh, Hd.
  rewrite (gather_rows_zeros n _ k _ Hn). reflexivity.
Qed.

(** ** What a boolean mask selects *)

Lemma select_rows_exhausted (mask : list Q) : select_rows 1 mask [] = [].
Proof.
  induction mask as [|m mask IH]; [reflexivity|].
  cbn [select_rows]. rewrite take_nil, drop_nil, IH.
  destruct (Qnonzero m); reflexivity.
Qed.

(** The selection of the model is the list of the values at the masked
    positions. *)
Lemma select_rows_masked_values (mask d : list Q) :
  select_rows 1 mask d = masked_values mask d.
Proof.
  unfold masked_values. revert d.
  induction mask as [|m mask IH]; intros d.
  - destruct d; reflexivity.
  - destruct d as [|x d].
    + rewrite select_rows_exhausted. reflexivity.
    + cbn [select_rows take drop]. rewrite IH. cbn [zip_with].
      rewrite filter_cons. cbn [snd].
      destruct (Qnonzero m) eqn:Hm.
      * rewrite decide_True by reflexivity. reflexivity.
      * rewrite decide_False by discriminate. reflexivity.
Qed.

Lemma masked_values_agree (mask d d' : list Q) :
  length d = length d' ->
  (forall i m, mask !! i = Some m -> Qnonzero m = true -> d !! i = d' !! i) ->
  masked_values mask d = masked_values mask d'.
Proof.
  intros Hlen Hagree. rewrite <- !select_rows_masked_values.
  apply select_rows_agree; assumption.
Qed.

(** [t[mask]] for a boolean mask of the shape of [t]. *)
Lemma getitem_bool_mask (t m : tensor) :
  t_dtype m = torch_bool -> shape t = shape m ->
  getitem t m
  = Ok (Tensor (t_dtype t) (t_device t) [count_nonzero (data m)]
               (masked_values (data m) (data t))).
Proof.
  intros Hdt Hsh. unfold getitem, index_mask. rewrite Hdt, Hsh.
  rewrite take_ge by lia.
  unfold shape_eqb. rewrite bool_decide_eq_true_2 by reflexivity.
  rewrite drop_all. cbn [prod_shape foldr].
  rewrite select_rows_masked_values. reflexivity.
Qed.

(** ** Frame rules *)

Lemma preserves_ret {S V A} (f : S -> V) (a : A) : preserves f (ret a).
Proof. intros s. reflexivity. Qed.

Lemma preserves_raise {S V A} (f : S -> V) (e : exn) :
  preserves f (@raise S A e).
Proof. intros s. reflexivity. Qed.

Lemma preserves_lift {S V A} (f : S -> V) (r : result A) :
  preserves f (@lift S A r).
Proof. intros s. reflexivity. Qed.

Lemma preserves_py_assert {S V} (f : S -> V) cond site msg :
  preserves f (@py_assert S cond site msg).
Proof. intros s. unfold py_assert. destruct cond; reflexivity. Qed.

Lemma preserves_bind {S V A B} (f : S -> V) (c : St S A) (k : A -> St S B) :
  preserves f c -> (forall a, preserves f (k a)) -> preserves f (bind c k).
Proof.
  intros Hc Hk s. unfold bind. specialize (Hc s).
  destruct (c s) as [[a|e] s1]; cbn in *.
  - rewrite (Hk a s1). exact Hc.
  - exact Hc.
Qed.

Create HintDb frame discriminated.
#[export] Hint Resolve preserves_ret preserves_raise preserves_lift
  preserves_py_assert preserves_bind : frame.

Section ModelStepFacts.
Context {World Aux : Type}.
Implicit Types (net masker : tensor -> St World tensor).
Implicit Types (criterion : tensor -> tensor -> St World scalar).
Implicit Types (X rate the_mask preds : tensor).

(** What a completed run of [model_step] has done, statement by statement. *)
Lemma model_step_Ok_inv
  net criterion masker X rate (a1 a2 : Aux) dev masking (w w' : World)
  loss preds targets the_mask rate' :
model_step net criterion masker (X, rate, a1, a2) dev masking w
  = (Ok (loss, preds, targets, the_mask, rate'), w') ->
targets = X /\ rate' = to_device dev rate /\
exists w1 w2 input target,
  make_mask masker X masking w = (Ok the_mask, w1) /\
  shape X = shape the_mask /\
  Qlt_bool (tsum the_mask) ((1 # 2) * inject_Z (Z.of_nat (numel the_mask)))
    = true /\
  Qle_bool (tsum (mask_input X the_mask)) (tsum X) = true /\
  net (to torch_float32 dev (mask_input X the_mask)) w1 = (Ok preds, w2) /\
  getitem preds the_mask = Ok input /\
  getitem X the_mask = Ok target /\
  criterion (to torch_float32 dev input) (to torch_float32 dev target) w2
    = (Ok loss, w').
Proof.
intros H. cbn [model_step] in H.
step_inv H as m w1 Hmask.
step_inv H as u1 s1 Hsh. apply py_assert_Ok_inv in Hsh as [Hsh ->].
step_inv H as u2 s2 Hfrac. apply py_assert_Ok_inv in Hfrac as [Hfrac ->].
unfold reconstruct in H.
step_inv H as u3 s3 Hsum. apply py_assert_Ok_inv in Hsum as [Hsum ->].
step_inv H as p w2 Hnet.
step_inv H as input s4 Hin. apply lift_Ok_inv in Hin as [Hin ->].
step_inv H as target s5 Htg. apply lift_Ok_inv in Htg as [Htg ->].
step_inv H as l w3 Hcrit. apply ret_Ok_inv in H as [H ->].
inversion H; subst; clear H.
split; [reflexivity|]. split; [reflexivity|].
exists w1, w2, input, target.
apply bool_decide_eq_true in Hsh.
repeat split; assumption.
Qed.


(** C4: with [masking = False] the mask that [model_step] builds is
    [zeros_like X], zero at every position and of the shape of [X], and that
    is the mask a completed step returns. *)
Theorem model_step_no_masking_zero_mask
    net criterion masker X rate (a1 a2 : Aux) dev (w : World) :
  make_mask masker X false w = (Ok (zeros_like X), w) /\
  shape (zeros_like X) = shape X /\
  length (data (zeros_like X)) = numel X /\
  Forall (fun q => q = 0) (data (zeros_like X)) /\
  forall loss preds targets the_mask rate' w',
    model_step net criterion masker (X, rate, a1, a2) dev false w
      = (Ok (loss, preds, targets, the_mask, rate'), w') ->
    the_mask = zeros_like X.
Proof.
  split; [reflexivity|]. split; [reflexivity|].
  split; [apply length_replicate|].
  split; [apply Forall_replicate; reflexivity|].
  intros loss preds targets the_mask rate' w' H.
  apply model_step_Ok_inv in H
    as (_ & _ & w1 & w2 & input & target & Hmask & _).
  cbn in Hmask. inversion Hmask. reflexivity.
Qed.

(** C2: whatever mask the step has obtained, if [mask.sum() >= 0.5 *
  mask.numel()] the step stops on an AssertionError (that of line 24 when
  the shapes agree, that of line 23 before it when they do not) and returns
  nothing; if [mask.sum() < 0.5 * mask.numel()] the assertion of line 24
  passes and the step goes on with lines 26-34. *)
Theorem model_step_mask_fraction_assert
  net criterion masker X rate (a1 a2 : Aux) dev masking (w w1 : World)
  the_mask :
make_mask masker X masking w = (Ok the_mask, w1) ->
((1 # 2) * inject_Z (Z.of_nat (numel the_mask)) <= tsum the_mask ->
 exists site,
   model_step net criterion masker (X, rate, a1, a2) dev masking w
     = (Raise (AssertionError site ""), w1) /\
   (shape X = shape the_mask -> site = L24_mask_fraction)) /\
(shape X = shape the_mask ->
 tsum the_mask < (1 # 2) * inject_Z (Z.of_nat (numel the_mask)) ->
 model_step net criterion masker (X, rate, a1, a2) dev masking w
   = reconstruct net criterion X the_mask (to_device dev rate) dev w1).
Proof.
intros Hmask. cbn [model_step].
rewrite (bind_Ok_run _ _ _ _ _ Hmask).
split.
- intros Hhalf. apply Qlt_bool_false_iff in Hhalf.
  unfold shape_eqb. destruct (decide (shape X = shape the_mask)) as [Heq|Hne].
  + exists L24_mask_fraction. split; [|reflexivity].
    rewrite (bool_decide_eq_true_2 _ Heq).
    unfold bind at 1. cbn. unfold bind at 1. rewrite Hhalf. reflexivity.
  + exists L23_shape. split; [|contradiction].
    rewrite (bool_decide_eq_false_2 _ Hne). reflexivity.
- intros Heq Hlt. apply Qlt_bool_iff in Hlt.
  unfold shape_eqb. rewrite (bool_decide_eq_true_2 _ Heq).
  unfold bind at 1. cbn. unfold bind at 1. rewrite Hlt. reflexivity.
Qed.



(** C8: [model_step] writes nothing itself.  Whatever part [parameters] of
  the ambient state the three callables it is given leave alone (the
  forward pass of the network, the masking policy, the criterion), a call
  of [model_step] leaves alone as well, whether it returns or raises. *)
Theorem model_step_preserves_parameters {P : Type} (parameters : World -> P)
  net criterion masker (batch : tensor * tensor * Aux * Aux) dev masking :
(forall t, preserves parameters (net t)) ->
(forall a b, preserves parameters (criterion a b)) ->
(forall t, preserves parameters (masker t)) ->
preserves parameters (model_step net criterion masker batch dev masking).
Proof.
intros Hnet Hcrit Hmasker.
destruct batch as [[[X rate] a1] a2]. cbn [model_step].
apply preserves_bind.
{ unfold make_mask. destruct masking; auto with frame. }
intros the_mask. unfold reconstruct.
repeat (apply preserves_bind; [auto with frame|intros ?]).
auto with frame.
Qed.

(** C10, as the code has it: for an [X] of dtype int32 or int64, a completed
  step with [masking = False] has built a zero mask of that dtype, not a
  boolean one; [predictions[mask]] and [X[mask]] are integer indexing along
  the first axis, taking row 0 once per element of the mask; and the
  selection taken from a well-formed [X] is not empty. *)
Theorem model_step_no_masking_integer_indexing
  net criterion masker X rate (a1 a2 : Aux) dev (w w' : World)
  loss preds targets the_mask rate' :
t_dtype X = torch_int32 \/ t_dtype X = torch_int64 ->
model_step net criterion masker (X, rate, a1, a2) dev false w
  = (Ok (loss, preds, targets, the_mask, rate'), w') ->
the_mask = zeros_like X /\
t_dtype the_mask = t_dtype X /\ t_dtype the_mask <> torch_bool /\
exists w2 input target np restp,
  shape preds = np :: restp /\
  getitem preds the_mask = Ok input /\
  index_int preds the_mask = Ok input /\
  shape input = shape X ++ restp /\
  data input
    = concat (replicate (numel X) (take (prod_shape restp) (data preds))) /\
  getitem X the_mask = Ok target /\
  index_int X the_mask = Ok target /\
  shape target = shape X ++ tail (shape X) /\
  data target
    = concat (replicate (numel X)
                        (take (prod_shape (tail (shape X))) (data X))) /\
  (wf_tensor X -> (0 < length (data target))%nat) /\
  criterion (to torch_float32 dev input) (to torch_float32 dev target) w2
    = (Ok loss, w').
Proof.
intros Hdt H.
apply model_step_Ok_inv in H
  as (-> & -> & w1 & w2 & input & target & Hmask & _ & Hfrac & _ & Hnet
      & Hin & Htg & Hcrit).
cbn in Hmask. inversion Hmask; subst the_mask w1; clear Hmask.
assert (t_dtype (zeros_like X) = t_dtype X) as Hzd by reflexivity.
assert (getitem preds (zeros_like X) = index_int preds (zeros_like X)
        /\ getitem X (zeros_like X) = index_int X (zeros_like X))
  as [Hgp Hgx].
{ unfold getitem. rewrite Hzd. destruct Hdt as [-> | ->]; split; reflexivity. }
assert (0 < numel X)%nat as Hpos.
{ apply Qlt_bool_iff in Hfrac.
  rewrite (tsum_zeros (zeros_like X) (numel X) eq_refl) in Hfrac.
  change (numel (zeros_like X)) with (numel X) in Hfrac.
  destruct (numel X); [|lia]. unfold Qlt in Hfrac. cbn in Hfrac. lia. }
split; [reflexivity|]. split; [reflexivity|].
split; [rewrite Hzd; destruct Hdt as [-> | ->]; discriminate|].
rewrite Hgp in Hin. rewrite Hgx in Htg.
destruct (shape preds) as [|np restp] eqn:Hsp;
  [unfold index_int in Hin; rewrite Hsp in Hin; discriminate|].
destruct (shape X) as [|n rest] eqn:HsX;
  [unfold index_int in Htg; rewrite HsX in Htg; discriminate|].
assert (0 < np)%nat as Hnp.
{ destruct np; [|lia]. exfalso.
  unfold index_int in Hin. rewrite Hsp in Hin. cbn [zeros_like data] in Hin.
  destruct (numel X); [lia|]. cbn [replicate gather_rows] in Hin.
  rewrite normalize_index_empty_axis in Hin. discriminate. }
assert (0 < n /\ 0 < prod_shape rest)%nat as [Hn Hrest].
{ unfold numel in Hpos. rewrite HsX in Hpos. cbn [prod_shape foldr] in Hpos.
  fold (prod_shape rest) in Hpos. nia. }
pose proof (index_int_zeros preds (zeros_like X) np (numel X) restp
              Hsp Hnp eq_refl) as Hip.
pose proof (index_int_zeros X (zeros_like X) n (numel X) rest
              HsX Hn eq_refl) as Hix.
rewrite Hip in Hin. rewrite Hix in Htg.
inversion Hin; subst input; clear Hin.
inversion Htg; subst target; clear Htg.
eexists w2, _, _, np, restp.
split; [reflexivity|].
split; [rewrite Hgp; exact Hip|].
split; [exact Hip|].
split; [cbn; rewrite HsX; reflexivity|].
split; [reflexivity|].
split; [rewrite Hgx; exact Hix|].
split; [exact Hix|].
split; [cbn; rewrite HsX; reflexivity|].
split; [reflexivity|].
split; [|exact Hcrit].
intros Hwf. cbn [data tail]. rewrite length_concat_replicate, length_take.
unfold wf_tensor in Hwf. rewrite Hwf.
assert (numel X = n * prod_shape rest)%nat as HnX.
{ unfold numel. rewrite HsX. reflexivity. }
nia.
Qed.

End ModelStepFacts.

(** ** [log_metrics] *)

Lemma Qmin_le_l (a b : Q) : Qmin a b <= a.
Proof.
  unfold Qmin. destruct (Qle_bool a b) eqn:E; [apply Qle_refl|].
  destruct (Qlt_le_dec b a) as [H|H]; [apply Qlt_le_weak; exact H|].
  apply Qle_bool_iff in H. congruence.
Qed.

Lemma Qmin_le_r (a b : Q) : Qmin a b <= b.
Proof.
  unfold Qmin. destruct (Qle_bool a b) eqn:E; [|apply Qle_refl].
  apply Qle_bool_iff. exact E.
Qed.

Lemma Qmin_glb (a b c : Q) : c <= a -> c <= b -> c <= Qmin a b.
Proof. intros Ha Hb. unfold Qmin. destruct (Qle_bool a b); assumption. Qed.

(** [tmin] returns a lower bound of the elements... *)
Lemma tmin_lower_bound (t : tensor) (least : Q) :
  tmin t = Ok least -> Forall (fun x => least <= x) (data t).
Proof.
  unfold tmin. destruct (data t) as [|x l]; [discriminate|].
  intros H. inversion H; subst least; clear H.
  induction l as [|y l IH]; cbn.
  - constructor; [apply Qle_refl|constructor].
  - inversion IH as [|? ? Hx Hl]; subst.
    constructor; [|constructor].
    + eapply Qle_trans; [apply Qmin_le_r|exact Hx].
    + apply Qmin_le_l.
    + eapply Forall_impl; [exact Hl|].
      intros z Hz. cbn in Hz. eapply Qle_trans; [apply Qmin_le_r|exact Hz].
Qed.

(** ... that is at least any lower bound of them. *)
Lemma tmin_greatest (t : tensor) (least c : Q) :
  tmin t = Ok least -> Forall (fun x => c <= x) (data t) -> c <= least.
Proof.
  unfold tmin. destruct (data t) as [|x l]; [discriminate|].
  intros H. inversion H; subst least; clear H. intros Hall.
  inversion Hall as [|? ? Hx Hl]; subst. clear Hall.
  induction Hl as [|y l Hy Hl IH]; cbn; [exact Hx|].
  apply Qmin_glb; assumption.
Qed.

Lemma tmin_nonempty (t : tensor) :
  data t <> [] -> exists least, tmin t = Ok least.
Proof.
  unfold tmin. destruct (data t) as [|x l]; [congruence|].
  intros _. eexists. reflexivity.
Qed.

Lemma appends_pure {A} (c : St SummaryWriter A) :
  (forall lg, snd (c lg) = lg) -> appends c.
Proof.
  intros H lg. exists []. rewrite H, app_nil_r. destruct lg; reflexivity.
Qed.

Lemma appends_lift {A} (r : result A) : appends (lift r).
Proof. apply appends_pure. reflexivity. Qed.

Lemma appends_py_assert cond site msg : appends (py_assert cond site msg).
Proof. apply appends_pure. intros lg. destruct cond; reflexivity. Qed.

Lemma appends_write (e : event) : appends (write e).
Proof. intros lg. exists [e]. reflexivity. Qed.

Lemma appends_bind {A B} (c : St SummaryWriter A) (k : A -> St SummaryWriter B) :
  appends c -> (forall a, appends (k a)) -> appends (bind c k).
Proof.
  intros Hc Hk lg. unfold bind. destruct (Hc lg) as [r1 H1].
  destruct (c lg) as [[a|e] lg1]; cbn in H1; subst lg1.
  - destruct (Hk a (Writer (log_dir lg) (events lg ++ r1))) as [r2 H2].
    exists (r1 ++ r2). rewrite H2. cbn. rewrite app_assoc. reflexivity.
  - exists r1. reflexivity.
Qed.

#[export] Hint Resolve appends_lift appends_py_assert appends_write
  appends_bind : frame.

Section LogMetricsFacts.
Variable sqrt : Q -> Q.
Implicit Types (g : module_globals) (preds targets mask : tensor).
Implicit Types (lg : SummaryWriter) (prefix : string) (epoch : nat).

(** X8: the assertion of line 38 fails, and nothing is written, as soon as
    one target is negative. *)
Lemma log_metrics_negative_targets g preds targets mask prefix epoch lg :
  Exists (fun x => x < 0) (data targets) ->
  log_metrics sqrt g preds targets mask prefix epoch lg
  = (Raise (AssertionError L38_targets "Negative targets"), lg).
Proof.
  intros Hneg.
  destruct (tmin_nonempty targets) as [least Hmin].
  { intros E. rewrite E in Hneg. inversion Hneg. }
  unfold log_metrics. rewrite (bind_Ok_run _ _ lg least lg)
    by (unfold lift; rewrite Hmin; reflexivity).
  assert (Qle_bool 0 least = false) as Hb.
  { destruct (Qle_bool 0 least) eqn:E; [|reflexivity].
    apply Qle_bool_iff in E. pose proof (tmin_lower_bound _ _ Hmin) as Hlb.
    apply Exists_exists in Hneg as (x & Hin & Hx).
    rewrite Forall_forall in Hlb. specialize (Hlb x Hin). lra. }
  rewrite Hb. reflexivity.
Qed.

(** X9: past the assertion, with the name [loss] bound at module level and
    predictions of a floating dtype, the six scalars are written, in the
    order of the source. *)
Lemma log_metrics_writes_six g loss preds targets mask prefix epoch lg :
  data targets <> [] ->
  Forall (fun x => 0 <= x) (data targets) ->
  g_loss g = Some loss ->
  is_floating (t_dtype preds) = true ->
  exists mean_preds std_preds mean_targets std_targets mean_mask,
    tmean preds = Ok mean_preds /\
    tstd sqrt preds = Ok std_preds /\
    tmean (to_dtype torch_float32 targets) = Ok mean_targets /\
    tstd sqrt (to_dtype torch_float32 targets) = Ok std_targets /\
    tmean (to_dtype torch_float32 mask) = Ok mean_mask /\
    log_metrics sqrt g preds targets mask prefix epoch lg
    = (Ok tt,
       Writer (log_dir lg)
         (events lg ++
          [add_scalar (prefix ++ "/loss") loss epoch;
           add_scalar (prefix ++ "/mean_preds") mean_preds epoch;
           add_scalar (prefix ++ "/std_preds") std_preds epoch;
           add_scalar (prefix ++ "/mean_targets") mean_targets epoch;
           add_scalar (prefix ++ "/std_targets") std_targets epoch;
           add_scalar (prefix ++ "/mean_mask") mean_mask epoch])).
Proof.
  intros Hne Hpos Hloss Hfl.
  destruct (tmin_nonempty targets Hne) as [least Hmin].
  assert (Qle_bool 0 least = true) as Hb.
  { apply Qle_bool_iff. eapply tmin_greatest; eassumption. }
  assert (forall t, is_floating (t_dtype t) = true ->
                    exists m, tmean t = Ok m) as Hmean.
  { intros t Ht. unfold tmean. rewrite Ht.
    destruct (data t); eexists; reflexivity. }
  assert (forall t, is_floating (t_dtype t) = true ->
                    exists m, tstd sqrt t = Ok m) as Hstd.
  { intros t Ht. unfold tstd. rewrite Ht.
    destruct (data t) as [|? [|? ?]]; eexists; reflexivity. }
  destruct (Hmean preds Hfl) as [mp Hmp].
  destruct (Hstd preds Hfl) as [sp Hsp].
  destruct (Hmean (to_dtype torch_float32 targets) eq_refl) as [mt Hmt].
  destruct (Hstd (to_dtype torch_float32 targets) eq_refl) as [st Hst].
  destruct (Hmean (to_dtype torch_float32 mask) eq_refl) as [mm Hmm].
  exists mp, sp, mt, st, mm. repeat (split; [assumption|]).
  unfold log_metrics, bind, lift, py_assert, write, ret.
  rewrite Hmin, Hb, Hloss, Hmp, Hsp, Hmt, Hst, Hmm. cbn.
  rewrite <- !app_assoc. reflexivity.
Qed.

(** C6: the value written under [<prefix>/loss] is the one bound to the
  name [loss] at module level.  Once the targets have passed the assertion
  of line 38, the first record written is that value under that tag,
  whatever [preds], [targets], [mask], [prefix], [epoch] and the logger
  are; when the name is not bound the call raises a NameError and writes
  nothing. *)
Theorem log_metrics_loss_from_module_scope
    g preds targets mask prefix epoch lg least :
  tmin targets = Ok least -> 0 <= least ->
  (forall loss, g_loss g = Some loss ->
     exists r rest,
       log_metrics sqrt g preds targets mask prefix epoch lg
       = (r, Writer (log_dir lg)
               (events lg ++
                add_scalar (prefix ++ "/loss") loss epoch :: rest))) /\
  (g_loss g = None ->
     log_metrics sqrt g preds targets mask prefix epoch lg
     = (Raise (NameError "loss"), lg)).
Proof.
  intros Hmin Hpos. apply Qle_bool_iff in Hpos.
  unfold log_metrics.
  rewrite (bind_Ok_run _ _ lg least lg)
    by (unfold lift; rewrite Hmin; reflexivity).
  rewrite Hpos.
  rewrite (bind_Ok_run _ _ lg tt lg) by reflexivity.
  split.
  - intros loss Hloss. rewrite Hloss.
    rewrite (bind_Ok_run _ _ lg loss lg) by reflexivity.
    erewrite bind_Ok_run by reflexivity.
    match goal with |- exists r rest, ?c ?s = _ =>
      assert (appends c) as Happ by auto 20 with frame;
      destruct (Happ s) as [rest Hrest]; destruct (c s) as [r lg'] end.
    cbn in Hrest. subst lg'. exists r, rest.
    rewrite <- app_assoc. reflexivity.
  - intros Hnone. rewrite Hnone. reflexivity.
Qed.

(** C9, where the code leaves the claim: the targets pass the assertion of
  line 38, the name [loss] is not bound at module level, and the call
  raises a NameError before the first [add_scalar]: none of the six
  scalars is written. *)
Theorem log_metrics_unbound_loss_writes_nothing
    g preds targets mask prefix epoch lg :
  data targets <> [] ->
  Forall (fun x => 0 <= x) (data targets) ->
  g_loss g = None ->
  log_metrics sqrt g preds targets mask prefix epoch lg
  = (Raise (NameError "loss"), lg).
Proof.
  intros Hne Hpos Hnone.
  destruct (tmin_nonempty targets Hne) as [least Hmin].
  assert (Qle_bool 0 least = true) as Hb.
  { apply Qle_bool_iff. eapply tmin_greatest; eassumption. }
  unfold log_metrics, bind, lift, py_assert.
  rewrite Hmin, Hb, Hnone. reflexivity.
Qed.

End LogMetricsFacts.

(** ** Edge cases and failures of [model_step] *)

Section ModelStepEdges.
Context {World Aux : Type}.
Implicit Types (net masker : tensor -> St World tensor).
Implicit Types (criterion : tensor -> tensor -> St World scalar).
Implicit Types (X rate the_mask preds : tensor).

(** A run of [model_step] put together from its statements. *)
Lemma model_step_Ok_intro
    net criterion masker X rate (a1 a2 : Aux) dev masking (w w1 w2 w' : World)
    the_mask preds input target loss :
  make_mask masker X masking w = (Ok the_mask, w1) ->
  shape X = shape the_mask ->
  Qlt_bool (tsum the_mask) ((1 # 2) * inject_Z (Z.of_nat (numel the_mask)))
    = true ->
  Qle_bool (tsum (mask_input X the_mask)) (tsum X) = true ->
  net (to torch_float32 dev (mask_input X the_mask)) w1 = (Ok preds, w2) ->
  getitem preds the_mask = Ok input ->
  getitem X the_mask = Ok target ->
  criterion (to torch_float32 dev input) (to torch_float32 dev target) w2
    = (Ok loss, w') ->
  model_step net criterion masker (X, rate, a1, a2) dev masking w
    = (Ok (loss, preds, X, the_mask, to_device dev rate), w').
Proof.
  intros Hmask Hsh Hfrac Hsum Hnet Hin Htg Hcrit.
  unfold model_step, reconstruct, score, bind, py_assert, ret, lift.
  rewrite Hmask. cbn beta iota.
  unfold shape_eqb. rewrite (bool_decide_eq_true_2 _ Hsh).
  rewrite Hfrac, Hsum, Hnet, Hin, Htg, Hcrit. reflexivity.
Qed.

(** A mask of zeros passes line 28 on counts within the exact range:
    nothing is removed from the sum. *)
Lemma all_false_mask_keeps_sum X the_mask :
  wf_tensor X -> exact_counts X ->
  data the_mask = replicate (numel X) 0 ->
  tsum (mask_input X the_mask) == tsum X.
Proof.
  intros Hwf HX Hd.
  rewrite tsum_mask_input, (exact_counts_tsum X HX), Hd, <- Hwf.
  apply Qsum_unmasked.
Qed.

Lemma zero_mask_fraction X :
  Qlt_bool (tsum (zeros_like X))
           ((1 # 2) * inject_Z (Z.of_nat (numel (zeros_like X))))
  = negb (Nat.eqb (numel X) 0).
Proof.
  change (numel (zeros_like X)) with (numel X).
  pose proof (tsum_zeros (zeros_like X) (numel X) eq_refl) as Hz.
  destruct (numel X) as [|n] eqn:E.
  - apply Qlt_bool_false_iff. rewrite Hz. apply Qle_bool_iff. reflexivity.
  - cbn [Nat.eqb negb]. apply Qlt_bool_iff. rewrite Hz.
    assert (inject_Z 1 <= inject_Z (Z.of_nat (S n))) as H1.
    { rewrite <- Zle_Qle. lia. }
    change (inject_Z 1) with 1 in H1. lra.
Qed.

(** X1: an empty batch never gets through.  With [masking = False] the
    step stops on the assertion of line 24 (0 < 0.5 * 0 is false) before the
    network is called; with a masking policy that returns a well-formed
    mask it stops on line 23 or line 24. *)
Theorem model_step_rejects_empty_batch
    net criterion masker X rate (a1 a2 : Aux) dev (w : World) :
  numel X = 0%nat ->
  model_step net criterion masker (X, rate, a1, a2) dev false w
    = (Raise (AssertionError L24_mask_fraction ""), w) /\
  forall the_mask w1,
    masker X w = (Ok the_mask, w1) -> wf_tensor the_mask ->
    exists site,
      model_step net criterion masker (X, rate, a1, a2) dev true w
        = (Raise (AssertionError site ""), w1) /\
      (site = L23_shape \/ site = L24_mask_fraction).
Proof.
  intros Hn. split.
  - unfold model_step, make_mask, bind, ret, py_assert.
    unfold shape_eqb. rewrite bool_decide_eq_true_2 by reflexivity.
    rewrite zero_mask_fraction, Hn. reflexivity.
  - intros the_mask w1 Hmask Hwf.
    unfold model_step, make_mask, bind, py_assert. rewrite Hmask.
    unfold shape_eqb. destruct (decide (shape X = shape the_mask)) as [Hs|Hs].
    + rewrite (bool_decide_eq_true_2 _ Hs). exists L24_mask_fraction.
      split; [|right; reflexivity].
      assert (numel the_mask = 0%nat) as Hm0.
      { unfold numel in *. rewrite <- Hs. exact Hn. }
      assert (data the_mask = []) as Hd.
      { apply length_zero_iff_nil. rewrite Hwf. exact Hm0. }
      assert (Qlt_bool (tsum the_mask)
                ((1 # 2) * inject_Z (Z.of_nat (numel the_mask))) = false)
        as ->; [|reflexivity].
      apply Qlt_bool_false_iff. rewrite (tsum_zeros the_mask 0 Hd), Hm0.
      apply Qle_bool_iff. reflexivity.
    + rewrite (bool_decide_eq_false_2 _ Hs). exists L23_shape.
      split; [reflexivity|left; reflexivity].
Qed.

(** A zero mask of a dtype that torch does not take as an index. *)
Lemma getitem_zeros_refused (t X : tensor) :
  is_floating (t_dtype X) = true \/ t_dtype X = torch_int8
    \/ t_dtype X = torch_int16 ->
  getitem t (zeros_like X) = Raise IndexError.
Proof.
  intros Hdt. unfold getitem. change (t_dtype (zeros_like X)) with (t_dtype X).
  destruct Hdt as [Hf|[-> | ->]]; [|reflexivity..].
  destruct (t_dtype X); try discriminate Hf; reflexivity.
Qed.

(** X2: validation ([masking = False]) cannot complete on an input whose
    dtype torch does not take as an index (a floating dtype, int8 or int16):
    the zero mask inherits that dtype, so whatever the network and the
    criterion do, the step ends in an exception. *)
Theorem model_step_no_masking_refused_dtype
    net criterion masker X rate (a1 a2 : Aux) dev (w : World) :
  is_floating (t_dtype X) = true \/ t_dtype X = torch_int8
    \/ t_dtype X = torch_int16 ->
  forall r w', model_step net criterion masker (X, rate, a1, a2) dev false w
               = (r, w') -> exists e, r = Raise e.
Proof.
  intros Hdt.
  intros [[[[[loss preds] targets] the_mask] rate']|e] w' H;
    [|exists e; reflexivity].
  apply model_step_Ok_inv in H
    as (_ & _ & w1 & w2 & input & target & Hmask & _ & _ & _ & _ & Hin & _).
  cbn in Hmask. inversion Hmask; subst the_mask.
  rewrite (getitem_zeros_refused _ X Hdt) in Hin. discriminate Hin.
Qed.

(** Indexing by a boolean (or uint8) mask of the tensor's shape with no
    position set selects nothing. *)
Lemma getitem_all_false (t m : tensor) (k : nat) :
  t_dtype m = torch_bool \/ t_dtype m = torch_uint8 ->
  shape m = shape t -> data m = replicate k 0 ->
  getitem t m = Ok (Tensor (t_dtype t) (t_device t) [0%nat] []).
Proof.
  intros Hdt Hsh Hd.
  assert (getitem t m = index_mask t m) as ->
    by (unfold getitem; destruct Hdt as [-> | ->]; reflexivity).
  unfold index_mask. rewrite Hsh, take_ge by lia.
  unfold shape_eqb. rewrite bool_decide_eq_true_2 by reflexivity.
  rewrite drop_all, Hd, count_nonzero_zeros. cbn [prod_shape foldr].
  rewrite select_rows_zeros. reflexivity.
Qed.


Lemma gather_rows_zeros_first_row (n bs k : nat) (d d' : list Q) :
  take bs d = take bs d' ->
  gather_rows n bs (replicate k 0) d = gather_rows n bs (replicate k 0) d'.
Proof.
  intros Htake. destruct n as [|n].
  - destruct k as [|k]; [reflexivity|].
    cbn [replicate gather_rows]. rewrite normalize_index_empty_axis.
    reflexivity.
  - rewrite !gather_rows_zeros by lia. rewrite Htake. reflexivity.
Qed.

(** X4: with [masking = False] on an int32 or int64 input the loss looks at
    row 0 of the predictions only.  Two networks whose outputs have the same
    dtype, device and shape and agree on their first row (the first
    [prod(shape[1:])] elements) get the same loss from the step. *)
Theorem model_step_no_masking_scores_first_row
    net net' criterion masker X rate (a1 a2 : Aux) dev (w w2 w' : World)
    preds preds' loss :
  t_dtype X = torch_int32 \/ t_dtype X = torch_int64 ->
  net (to torch_float32 dev (mask_input X (zeros_like X))) w = (Ok preds, w2) ->
  net' (to torch_float32 dev (mask_input X (zeros_like X))) w
    = (Ok preds', w2) ->
  t_dtype preds' = t_dtype preds -> t_device preds' = t_device preds ->
  shape preds' = shape preds ->
  take (prod_shape (tail (shape preds))) (data preds')
    = take (prod_shape (tail (shape preds))) (data preds) ->
  model_step net criterion masker (X, rate, a1, a2) dev false w
    = (Ok (loss, preds, X, zeros_like X, to_device dev rate), w') ->
  model_step net' criterion masker (X, rate, a1, a2) dev false w
    = (Ok (loss, preds', X, zeros_like X, to_device dev rate), w').
Proof.
  intros Hdt Hnet Hnet' Hd Hdev Hsh Hrow H.
  apply model_step_Ok_inv in H
    as (_ & _ & w1 & w3 & input & target & Hmask & Hs & Hfrac & Hsum & Hnet0
        & Hin & Htg & Hcrit).
  cbn in Hmask. inversion Hmask; subst w1; clear Hmask.
  rewrite Hnet in Hnet0. inversion Hnet0; subst w3; clear Hnet0.
  eapply model_step_Ok_intro; try eassumption; [reflexivity|].
  rewrite <- Hin. unfold getitem.
  change (t_dtype (zeros_like X)) with (t_dtype X).
  assert (index_int preds' (zeros_like X) = index_int preds (zeros_like X))
    as Hidx.
  { unfold index_int. rewrite Hsh, Hd, Hdev.
    destruct (shape preds) as [|n rest]; [reflexivity|].
    cbn [zeros_like data]. cbn [tail] in Hrow.
    rewrite (gather_rows_zeros_first_row n _ _ _ _ Hrow). reflexivity. }
  destruct Hdt as [-> | ->]; exact Hidx.
Qed.

(** X5: the network never sees a masked value.  In a completed step the
    tensor the network was called on is float32, on the device, of the shape
    of [X]; it holds 0 wherever the mask holds 1, and wherever the mask holds
    0 it holds the value of [X], when that is an integer below 2^24 in
    absolute value (one that float32 holds exactly). *)
Theorem model_step_hides_masked_values
    net criterion masker X rate (a1 a2 : Aux) dev masking (w w' : World)
    loss preds targets the_mask rate' :
  model_step net criterion masker (X, rate, a1, a2) dev masking w
    = (Ok (loss, preds, targets, the_mask, rate'), w') ->
  exists t w1 w2,
    net t w1 = (Ok preds, w2) /\
    t_dtype t = torch_float32 /\ t_device t = dev /\ shape t = shape X /\
    forall i m x,
      data the_mask !! i = Some m -> data X !! i = Some x ->
      exists v, data t !! i = Some v /\
                (m == 1 -> v == 0) /\
                (m == 0 ->
                 (exists n : Z, (Z.abs n < 2 ^ 24)%Z /\ x == inject_Z n) ->
                 v == x).
Proof.
  intros H.
  apply model_step_Ok_inv in H
    as (_ & _ & w1 & w2 & input & target & _ & _ & _ & _ & Hnet & _).
  exists (to torch_float32 dev (mask_input X the_mask)), w1, w2.
  split; [exact Hnet|]. repeat (split; [reflexivity|]).
  intros i m x Hm Hx. exists (x * (1 - m)). split.
  - cbn. rewrite !cast_float32_data, lookup_zip_with, Hx. cbn.
    rewrite list_lookup_fmap, Hm. reflexivity.
  - split; [intros ->; ring|intros -> _; ring].
Qed.

Lemma Qsum_mask_split (xs ms : list Q) :
  length ms = length xs ->
  Qsum (zip_with Qmult xs (map (fun q => 1 - q) ms))
  == Qsum xs - Qsum (zip_with Qmult xs ms).
Proof.
  unfold Qsum. revert ms. induction xs as [|x xs IH]; intros [|m ms] Hlen;
    try discriminate Hlen; cbn.
  - ring.
  - rewrite (IH ms) by (cbn in Hlen; lia). ring.
Qed.

(** The sum of integers is an integer, no larger than the sum of their
    absolute values. *)
Lemma integers_Qsum (l : list Q) :
  Forall (fun x => exists n : Z, x == inject_Z n) l ->
  exists n : Z, Qsum l == inject_Z n /\
                inject_Z (Z.abs n) <= Qsum (map Qabs l).
Proof.
  induction 1 as [|x l (m & Hx) _ (n & IH & Hb)].
  - exists 0%Z. split; [reflexivity|apply Qle_refl].
  - exists (m + n)%Z. cbn. unfold Qsum in *. split.
    + rewrite IH, Hx, inject_Z_plus. reflexivity.
    + assert (Qabs x == inject_Z (Z.abs m)) as Ha.
      { rewrite Hx. reflexivity. }
      rewrite Ha.
      assert (inject_Z (Z.abs (m + n))
              <= inject_Z (Z.abs m) + inject_Z (Z.abs n)) as Ht.
      { rewrite <- inject_Z_plus, <- Zle_Qle. lia. }
      lra.
Qed.

(** X6: what line 28 tests.  For an [X] of integers whose absolute values
    sum to less than the bound of the exact range and a mask of as many
    entries in {0, 1}, the assertion passes exactly when the values under
    the mask sum to a non-negative number. *)
Theorem masked_sum_assertion_iff X the_mask :
  length (data the_mask) = length (data X) ->
  Forall (fun x => exists n : Z, x == inject_Z n) (data X) ->
  Qsum (map Qabs (data X)) < inject_Z (sum_bound (t_dtype X)) ->
  Forall (fun m => m == 0 \/ m == 1) (data the_mask) ->
  Qle_bool (tsum (mask_input X the_mask)) (tsum X) = true
  <-> 0 <= Qsum (zip_with Qmult (data X) (data the_mask)).
Proof.
  intros Hlen Hint Hb _.
  destruct (integers_Qsum _ Hint) as (n & Hsum & Habs).
  assert (tsum X == Qsum (data X)) as HtX.
  { rewrite Hsum. apply tsum_exact; [exact Hsum|].
    assert (inject_Z (Z.abs n) < inject_Z (sum_bound (t_dtype X))) as Hn
      by (eapply Qle_lt_trans; eassumption).
    rewrite <- Zlt_Qlt in Hn. pose proof (sum_bound_int64 (t_dtype X)).
    lia. }
  rewrite Qle_bool_iff, tsum_mask_input, HtX,
    (Qsum_mask_split _ _ Hlen).
  split; intros H; lra.
Qed.

End ModelStepEdges.

(** ** The epoch loop and the checkpoint *)

Lemma for_enumerate_app {T A} (xs ys : list A) (body : nat -> A -> St T unit)
      (i : nat) (s : T) :
  for_enumerate i (xs ++ ys) body s
  = (for_enumerate i xs body ;;;
     for_enumerate (i + length xs) ys body) s.
Proof.
  revert i s. induction xs as [|x xs IH]; intros i s.
  - cbn. rewrite Nat.add_0_r. reflexivity.
  - cbn [app for_enumerate length].
    replace (i + S (length xs))%nat with (S i + length xs)%nat by lia.
    unfold bind. destruct (body i x s) as [[[]|e] s1]; [|reflexivity].
    rewrite IH. reflexivity.
Qed.

Lemma preserves_for_enumerate {T V A} (f : T -> V) (xs : list A)
      (body : nat -> A -> St T unit) (i : nat) :
  (forall j x, preserves f (body j x)) ->
  preserves f (for_enumerate i xs body).
Proof.
  intros Hbody. revert i. induction xs as [|x xs IH]; intros i; cbn.
  - apply preserves_ret.
  - apply preserves_bind; [apply Hbody|intros _; apply IH].
Qed.

Lemma preserves_with_context {T V A} (f : T -> V)
      (enter leave : St T unit) (body : St T A) :
  preserves f enter -> preserves f leave -> preserves f body ->
  preserves f (with_context enter leave body).
Proof.
  intros He Hl Hb. unfold with_context. apply preserves_bind; [exact He|].
  intros _ s. specialize (Hb s). destruct (body s) as [r s1].
  specialize (Hl s1). destruct (leave s1) as [[u|e] s2]; cbn in *; congruence.
Qed.

Lemma preserves_write_log_dir (e : event) : preserves log_dir (write e).
Proof. intros lg. reflexivity. Qed.

Lemma preserves_log_metrics_log_dir sqrt g preds targets mask prefix epoch :
  preserves log_dir (log_metrics sqrt g preds targets mask prefix epoch).
Proof.
  unfold log_metrics.
  repeat (apply preserves_bind;
          [auto using preserves_write_log_dir with frame|intros ?]).
  apply preserves_write_log_dir.
Qed.

#[export] Hint Resolve preserves_for_enumerate preserves_with_context
  preserves_write_log_dir preserves_log_metrics_log_dir : frame.

Section ScriptFacts.
Context {World Aux StateDict : Type}.
Variable net : tensor -> St World tensor.
Variable net_train net_eval : St World unit.
Variable state_dict : World -> StateDict.
Variable masker : tensor -> St World tensor.
Variable train_loader : St World (list (tensor * tensor * Aux * Aux)).
Variable val_loader : St World (list (tensor * tensor * Aux * Aux)).
Variable zero_grad optimizer_step : St World unit.
Variable backward : scalar -> St World unit.
Variable no_grad_enter no_grad_exit : St World unit.
Variable r2_of : tensor -> tensor -> result scalar.
Variable sqrt : Q -> Q.
Variable learning_rate : Q.
Variable str : Q -> string.
Variable dev : device.

Abbreviation script := (@script World StateDict).
Abbreviation disk := (@disk_of World StateDict).
Abbreviation dir := (@dir_of World StateDict).

Lemma in_world_keeps_disk {A} (c : St World A) :
  preserves disk (in_world c).
Proof. intros st. unfold in_world. destruct (c (world st)); reflexivity. Qed.

Lemma in_world_keeps_dir {A} (c : St World A) :
  preserves dir (in_world c).
Proof. intros st. unfold in_world. destruct (c (world st)); reflexivity. Qed.

Lemma in_logger_keeps_disk {A} (c : St SummaryWriter A) :
  preserves disk (in_logger (World:=World) c).
Proof. intros st. unfold in_logger. destruct (c (logger st)); reflexivity. Qed.

Lemma in_logger_keeps_dir {A} (c : St SummaryWriter A) :
  preserves log_dir c -> preserves dir (in_logger (World:=World) c).
Proof.
  intros Hc st. unfold in_logger, dir_of. specialize (Hc (logger st)).
  destruct (c (logger st)); exact Hc.
Qed.

Lemma get_globals_keeps {V} (f : script -> V) : preserves f get_globals.
Proof. intros st. reflexivity. Qed.

Lemma set_globals_keeps_disk g : preserves disk (set_globals g).
Proof. intros st. reflexivity. Qed.

Lemma set_globals_keeps_dir g : preserves dir (set_globals g).
Proof. intros st. reflexivity. Qed.

Hint Resolve in_world_keeps_disk in_world_keeps_dir in_logger_keeps_disk
  in_logger_keeps_dir get_globals_keeps set_globals_keeps_disk
  set_globals_keeps_dir : frame.

Ltac frame :=
  repeat first
    [ progress intros
    | match goal with
      | r : step_result |- _ => destruct r as [[[[? ?] ?] ?] ?]
      end
    | apply preserves_with_context
    | apply preserves_for_enumerate
    | solve [auto with frame]
    | apply preserves_bind
    | progress cbn [bind_step bind_step_but_loss] ].

Lemma train_and_validate_keeps_disk epoch :
  preserves disk
    (train_and_validate net net_train net_eval masker train_loader
       val_loader zero_grad optimizer_step backward no_grad_enter
       no_grad_exit r2_of sqrt dev epoch).
Proof.
  unfold train_and_validate, train_batch, val_batch, call_log_metrics,
    log_images.
  frame.
Qed.

Lemma train_and_validate_keeps_dir epoch :
  preserves dir
    (train_and_validate net net_train net_eval masker train_loader
       val_loader zero_grad optimizer_step backward no_grad_enter
       no_grad_exit r2_of sqrt dev epoch).
Proof.
  unfold train_and_validate, train_batch, val_batch, call_log_metrics,
    log_images.
  frame.
Qed.

(** In the loop itself the name [loss] is bound when [log_metrics] runs:
    the step's result has just been assigned at module level. *)
Lemma bind_step_binds_loss (r : step_result) (st : script) :
  g_loss (globals (snd (bind_step r st))) = Some (fst (fst (fst (fst r)))).
Proof. destruct r as [[[[loss preds] targets] the_mask] rate]. reflexivity. Qed.

Abbreviation the_epoch_body :=
  (epoch_body net net_train net_eval state_dict masker train_loader
     val_loader zero_grad optimizer_step backward no_grad_enter
     no_grad_exit r2_of sqrt dev).
Abbreviation the_run_epochs :=
  (run_epochs net net_train net_eval state_dict masker train_loader
     val_loader zero_grad optimizer_step backward no_grad_enter
     no_grad_exit r2_of sqrt dev).
Abbreviation the_start :=
  (start (World:=World) (StateDict:=StateDict) learning_rate str).
Abbreviation run_dir := ("Learning_rate=" ++ str learning_rate)%string.

(** A completed epoch has left on disk, under [model.pt] in the writer's
    directory, the parameters it ends with, and nothing else has changed
    there. *)
Lemma epoch_body_checkpoint epoch (st st' : script) :
  the_epoch_body epoch st = (Ok tt, st') ->
  files st'
  = <[os_path_join (dir st) "model.pt" := state_dict (world st')]> (files st)
  /\ dir st' = dir st.
Proof.
  unfold epoch_body. intros H.
  step_inv H as u st1 Hbefore.
  pose proof (train_and_validate_keeps_disk epoch st) as Hdisk.
  pose proof (train_and_validate_keeps_dir epoch st) as Hdir.
  rewrite Hbefore in Hdisk, Hdir. cbn [snd] in Hdisk, Hdir.
  unfold save_checkpoint in H. inversion H; subst st'; clear H.
  unfold disk_of, dir_of in *. cbn. rewrite Hdisk, Hdir. split; reflexivity.
Qed.

Lemma run_epochs_S (n : nat) (st : script) :
  the_run_epochs (S n) st = (the_run_epochs n ;;; the_epoch_body n) st.
Proof.
  unfold run_epochs. rewrite seq_S, for_enumerate_app.
  cbn [for_enumerate Nat.add]. unfold bind, ret.
  destruct (for_enumerate 0 (seq 0 n) _ st) as [[[]|e] st1]; [|reflexivity].
  destruct (the_epoch_body n st1) as [[[]|e] st2]; reflexivity.
Qed.

(** A run that completes [n] epochs has completed every shorter run. *)
Lemma run_epochs_prefix (n k : nat) (st st' : script) :
  the_run_epochs n st = (Ok tt, st') -> (k <= n)%nat ->
  exists st_k, the_run_epochs k st = (Ok tt, st_k).
Proof.
  revert st'. induction n as [|n IH]; intros st' H Hk.
  - replace k with 0%nat by lia. exists st'. exact H.
  - destruct (decide (k = S n)) as [->|Hne]; [exists st'; exact H|].
    rewrite run_epochs_S in H. step_inv H as u st1 Hn.
    destruct u. apply (IH st1 Hn). lia.
Qed.

Lemma run_epochs_checkpoint (k : nat) w disk0 (st : script) :
  the_run_epochs (S k) (the_start w disk0) = (Ok tt, st) ->
  dir st = run_dir /\
  files st
  = <[os_path_join run_dir "model.pt" := state_dict (world st)]> disk0.
Proof.
  revert st. induction k as [|k IH]; intros st H;
    rewrite run_epochs_S in H; step_inv H as u st1 Hk; destruct u.
  - cbn in Hk. inversion Hk; subst st1; clear Hk.
    apply epoch_body_checkpoint in H as [Hf Hd]. split; assumption.
  - destruct (IH st1 Hk) as [Hd1 Hf1].
    apply epoch_body_checkpoint in H as [Hf Hd].
    rewrite Hd1 in Hf, Hd. split; [exact Hd|].
    rewrite Hf, Hf1. apply insert_insert_eq.
Qed.


(** ** Further properties of the epoch loop *)

Abbreviation the_train_and_validate :=
  (train_and_validate net net_train net_eval masker train_loader val_loader
     zero_grad optimizer_step backward no_grad_enter no_grad_exit r2_of sqrt
     dev).

Lemma in_world_inv {A} (c : St World A) (st st' : script) (r : result A) :
  in_world c st = (r, st') ->
  c (world st) = (r, world st') /\ globals st' = globals st /\
  logger st' = logger st /\ files st' = files st.
Proof.
  unfold in_world. destruct (c (world st)) as [r0 w0]. intros H.
  inversion H; subst. cbn. auto.
Qed.

Lemma with_context_Ok_inv {T A} (enter leave : St T unit) (body : St T A)
      (s s' : T) (a : A) :
  with_context enter leave body s = (Ok a, s') ->
  exists s1 s2, enter s = (Ok tt, s1) /\ body s1 = (Ok a, s2).
Proof.
  unfold with_context. intros H. step_inv H as u s1 Henter. destruct u.
  destruct (body s1) as [r s2] eqn:Hbody.
  destruct (leave s2) as [[u|e] s3]; inversion H; subst.
  exists s1, s2. split; [exact Henter|exact Hbody].
Qed.


Lemma tmin_raises (t : tensor) (e : exn) :
  tmin t = Raise e -> e = RuntimeError.
Proof.
  unfold tmin. destruct (data t); intros H; inversion H; reflexivity.
Qed.

Lemma tmean_raises (t : tensor) (e : exn) :
  tmean t = Raise e -> e = RuntimeError.
Proof.
  unfold tmean. destruct (is_floating _); [destruct (data t)|];
    intros H; inversion H; reflexivity.
Qed.

Lemma tstd_raises (t : tensor) (e : exn) :
  tstd sqrt t = Raise e -> e = RuntimeError.
Proof.
  unfold tstd. destruct (is_floating _); [destruct (data t) as [|? [|? ?]]|];
    intros H; inversion H; reflexivity.
Qed.

(** With [loss] bound, [log_metrics] raises no NameError. *)
Lemma log_metrics_bound_loss g loss preds targets mask prefix epoch lg lg' e :
  g_loss g = Some loss ->
  log_metrics sqrt g preds targets mask prefix epoch lg = (Raise e, lg') ->
  e = RuntimeError \/ e = AssertionError L38_targets "Negative targets".
Proof.
  intros Hloss.
  unfold log_metrics, bind, lift, py_assert, write, ret, raise, load_global.
  rewrite Hloss.
  destruct (tmin targets) eqn:E0;
    [|intros H; inversion H; subst; left; eapply tmin_raises; eassumption].
  destruct (Qle_bool 0 a); [|intros H; inversion H; right; reflexivity].
  destruct (tmean preds) eqn:E1;
    [|intros H; inversion H; subst; left; eapply tmean_raises; eassumption].
  destruct (tstd sqrt preds) eqn:E2;
    [|intros H; inversion H; subst; left; eapply tstd_raises; eassumption].
  destruct (tmean (to_dtype torch_float32 targets)) eqn:E3;
    [|intros H; inversion H; subst; left; eapply tmean_raises; eassumption].
  destruct (tstd sqrt (to_dtype torch_float32 targets)) eqn:E4;
    [|intros H; inversion H; subst; left; eapply tstd_raises; eassumption].
  destruct (tmean (to_dtype torch_float32 mask)) eqn:E5;
    [|intros H; inversion H; subst; left; eapply tmean_raises; eassumption].
  intros H. discriminate H.
Qed.

(** A call that returns has written the module-level loss first. *)
Lemma log_metrics_Ok_first_record g preds targets mask prefix epoch lg lg' :
  log_metrics sqrt g preds targets mask prefix epoch lg = (Ok tt, lg') ->
  exists loss rest,
    g_loss g = Some loss /\
    events lg'
    = events lg ++ add_scalar (prefix ++ "/loss") loss epoch :: rest.
Proof.
  unfold log_metrics. intros H.
  step_inv H as least s1 Hmin. apply lift_Ok_inv in Hmin as [_ ->].
  step_inv H as u1 s2 Hle. apply py_assert_Ok_inv in Hle as [_ ->].
  step_inv H as loss s3 Hloss. apply lift_Ok_inv in Hloss as [Hloss ->].
  step_inv H as u2 s4 Hw. unfold write in Hw. inversion Hw; subst s4 u2.
  match type of H with ?c ?s = _ =>
    assert (appends c) as Happ by auto 30 with frame;
    destruct (Happ s) as [rest Hrest] end.
  rewrite H in Hrest. cbn in Hrest. subst lg'.
  exists loss, rest. split.
  - destruct (g_loss g); [inversion Hloss; reflexivity|discriminate Hloss].
  - cbn. rewrite <- app_assoc. reflexivity.
Qed.

(** X12: in the loop the defect of [log_metrics] does not show.  Called
    right after the result of a step has been assigned at module level, as
    lines 82-89 and 102-105 do, [log_metrics] raises no NameError, and when
    it returns, the loss it has written is the loss that step returned. *)
Theorem loop_log_metrics_finds_loss
    (r : step_result) prefix n (st st2 : script) res :
  call_log_metrics sqrt prefix n (snd (bind_step r st)) = (res, st2) ->
  (forall name, res <> Raise (NameError name)) /\
  (res = Ok tt ->
   exists rest,
     events (logger st2)
     = events (logger st)
       ++ add_scalar (prefix ++ "/loss") (fst (fst (fst (fst r)))) n :: rest).
Proof.
  destruct r as [[[[loss preds] targets] the_mask] rate].
  unfold call_log_metrics, bind, get_globals, lift, load_global, in_logger.
  cbn [bind_step set_globals snd fst globals g_preds g_targets g_the_mask
       logger world files].
  match goal with
  | |- context [log_metrics sqrt ?g preds targets the_mask prefix n ?lg] =>
      destruct (log_metrics sqrt g preds targets the_mask prefix n lg)
        as [r0 lg'] eqn:Hlm
  end.
  intros H. inversion H; subst res st2; clear H. split.
  - intros name ->.
    apply (log_metrics_bound_loss _ loss) in Hlm; [|reflexivity].
    destruct Hlm as [Hlm|Hlm]; discriminate Hlm.
  - intros ->. apply log_metrics_Ok_first_record in Hlm
      as (loss' & rest & Hloss & Hev).
    cbn in Hloss. inversion Hloss; subst loss'. exists rest. exact Hev.
Qed.

Lemma train_and_validate_refused_dtype epoch (st st1 : script) u :
  (forall w bs w',
     val_loader w = (Ok bs, w') ->
     exists X rate a1 a2 rest,
       bs = (X, rate, a1, a2) :: rest /\
       (is_floating (t_dtype X) = true \/ t_dtype X = torch_int8
        \/ t_dtype X = torch_int16)) ->
  the_train_and_validate epoch st = (Ok u, st1) -> False.
Proof.
  intros Hval H. unfold train_and_validate in H.
  step_inv H as u1 s1 H1. step_inv H as batches s2 H2.
  step_inv H as u3 s3 H3. step_inv H as u4 s4 H4. step_inv H as u5 s5 H5.
  step_inv H as u6 s6 Hctx.
  apply with_context_Ok_inv in Hctx as (s7 & s8 & _ & Hbody).
  step_inv Hbody as vbatches s9 Hload.
  apply in_world_inv in Hload as [Hload _].
  destruct (Hval _ _ _ Hload) as (X & rate & a1 & a2 & rest & -> & Hdt).
  cbn [for_enumerate] in Hbody. step_inv Hbody as u7 s10 Hvb.
  unfold val_batch in Hvb. step_inv Hvb as r s11 Hstep.
  apply in_world_inv in Hstep as [Hstep _].
  destruct r as [[[[loss preds] targets] the_mask] rate'].
  apply model_step_Ok_inv in Hstep
    as (_ & _ & w1 & w2 & input & target & Hmask & _ & _ & _ & _ & Hin & _).
  cbn in Hmask. inversion Hmask; subst the_mask.
  rewrite (getitem_zeros_refused _ X Hdt) in Hin. discriminate Hin.
Qed.

(** X15: validation data of a dtype that torch does not take as an index
    (floats, int8, int16) stops every epoch before line 124.  If each pass
    over the validation loader starts with such a batch, no run of one or
    more epochs completes and the disk stays as it was: no checkpoint is
    ever written. *)
Theorem refused_validation_dtype_never_checkpoints :
  (forall w bs w',
     val_loader w = (Ok bs, w') ->
     exists X rate a1 a2 rest,
       bs = (X, rate, a1, a2) :: rest /\
       (is_floating (t_dtype X) = true \/ t_dtype X = torch_int8
        \/ t_dtype X = torch_int16)) ->
  forall n (st st' : script) r,
    the_run_epochs n st = (r, st') ->
    files st' = files st /\ ((0 < n)%nat -> exists e, r = Raise e).
Proof.
  intros Hval.
  assert (forall epoch (st st' : script) r,
            the_epoch_body epoch st = (r, st') ->
            files st' = files st /\ exists e, r = Raise e) as Hepoch.
  { intros epoch st st' r H. unfold epoch_body, bind in H.
    pose proof (train_and_validate_keeps_disk epoch st) as Hdisk.
    destruct (the_train_and_validate epoch st) as [[u|e] st1] eqn:Htv.
    - exfalso. eapply train_and_validate_refused_dtype; eassumption.
    - inversion H; subst. split; [exact Hdisk|]. exists e. reflexivity. }
  induction n as [|n IH]; intros st st' r H.
  - cbn in H. inversion H; subst. split; [reflexivity|lia].
  - rewrite run_epochs_S in H. unfold bind in H.
    destruct (the_run_epochs n st) as [[[]|e] st1] eqn:Hn.
    + destruct (IH _ _ _ Hn) as [Hf1 _].
      apply Hepoch in H as (Hf & e & He).
      split; [congruence|]. intros _. exists e. exact He.
    + inversion H; subst. destruct (IH _ _ _ Hn) as [Hf1 _].
      split; [exact Hf1|]. intros _. exists e. reflexivity.
Qed.

(** The frame condition of [model_step], for the loop. *)
Lemma model_step_frame {P : Type} (parameters : World -> P)
      (crit : tensor -> tensor -> St World scalar)
      (batch : tensor * tensor * Aux * Aux) masking :
  (forall t, preserves parameters (net t)) ->
  (forall a b, preserves parameters (crit a b)) ->
  (forall t, preserves parameters (masker t)) ->
  preserves parameters (model_step net crit masker batch dev masking).
Proof.
  intros Hnet Hcrit Hmasker.
  destruct batch as [[[X rate] a1] a2]. cbn [model_step].
  apply preserves_bind.
  { unfold make_mask. destruct masking; auto with frame. }
  intros the_mask. unfold reconstruct.
  repeat (apply preserves_bind; [auto with frame|intros ?]).
  auto with frame.
Qed.

Lemma in_world_keeps_view {P A} (parameters : World -> P) (c : St World A) :
  preserves parameters c ->
  preserves (fun st : script => parameters (world st)) (in_world c).
Proof.
  intros Hc st. unfold in_world. specialize (Hc (world st)).
  destruct (c (world st)); exact Hc.
Qed.

Lemma in_logger_keeps_world {V A} (f : World -> V) (c : St SummaryWriter A) :
  preserves (fun st : script => f (world st)) (in_logger c).
Proof. intros st. unfold in_logger. destruct (c (logger st)); reflexivity. Qed.

Lemma set_globals_keeps_world {V} (f : World -> V) g :
  preserves (fun st : script => f (world st)) (set_globals g).
Proof. intros st. reflexivity. Qed.

(** X17: a validation batch takes no optimizer step.  Whatever part of
    torch's state the forward pass of the network and the masking policy
    leave alone (the parameters), lines 100-115 leave alone, whether they
    return or raise. *)
Theorem val_batch_preserves_parameters {P : Type} (parameters : World -> P)
    epoch len_loader batch_num (batch : tensor * tensor * Aux * Aux) :
  (forall t, preserves parameters (net t)) ->
  (forall t, preserves parameters (masker t)) ->
  preserves (fun st : script => parameters (world st))
    (val_batch net masker r2_of sqrt dev epoch len_loader batch_num batch).
Proof.
  intros Hnet Hmasker.
  assert (forall masking,
            preserves parameters
              (model_step net criterion masker batch dev masking)) as Hstep.
  { intros masking. apply model_step_frame; try assumption.
    intros a b. apply preserves_lift. }
  unfold val_batch, call_log_metrics.
  repeat first
    [ progress intros
    | match goal with
      | r : step_result |- _ => destruct r as [[[[? ?] ?] ?] ?]
      end
    | apply in_world_keeps_view; apply Hstep
    | apply in_logger_keeps_world
    | apply set_globals_keeps_world
    | apply get_globals_keeps
    | apply preserves_lift
    | apply preserves_bind
    | progress cbn [bind_step bind_step_but_loss] ].
Qed.

End ScriptFacts.

(** * The statements at concrete inputs *)



Lemma model_step_mask_fraction_assert_witness :
  (exists site,
     model_step identity_net mse (fixed_masker mask3_wide) batch3 cpu true tt
       = (Raise (AssertionError site ""), tt) /\
     site = L24_mask_fraction) /\
  model_step identity_net mse (fixed_masker mask3) batch3 cpu true tt
    = reconstruct identity_net mse X3 mask3 (to_device cpu rate3) cpu tt.
Proof.
  split.
  - destruct (model_step_mask_fraction_assert (Aux:=unit)
                identity_net mse (fixed_masker mask3_wide) X3 rate3 tt tt cpu
                true tt tt mask3_wide eq_refl) as [Hfail _].
    destruct Hfail as (site & Hrun & Hsite).
    { apply Qle_bool_iff. reflexivity. }
    exists site. split; [exact Hrun|]. apply Hsite. reflexivity.
  - apply (model_step_mask_fraction_assert (Aux:=unit)
             identity_net mse (fixed_masker mask3) X3 rate3 tt tt cpu
             true tt tt mask3 eq_refl).
    + reflexivity.
    + apply Qlt_bool_iff. reflexivity.
Defined.



Lemma model_step_no_masking_zero_mask_witness :
  model_step identity_net mse (fixed_masker mask3) batch3 cpu false tt
    = (Ok (Finite (0 # 3), to_dtype torch_float32 X3, X3, zeros_like X3,
           rate3), tt) /\
  data (zeros_like X3) = [0; 0; 0] /\
  zeros_like X3 = zeros_like X3.
Proof.
  assert (model_step identity_net mse (fixed_masker mask3) batch3 cpu false tt
          = (Ok (Finite (0 # 3), to_dtype torch_float32 X3, X3,
                 zeros_like X3, rate3), tt)) as Hrun by reflexivity.
  split; [exact Hrun|]. split; [reflexivity|].
  destruct (model_step_no_masking_zero_mask (Aux:=unit)
              identity_net mse (fixed_masker mask3) X3 rate3 tt tt cpu tt)
    as (_ & _ & _ & _ & Hret).
  exact (Hret _ _ _ _ _ _ Hrun).
Defined.



Lemma model_step_preserves_parameters_witness :
  preserves fst
    (model_step (Aux:=unit) scaling_net mse first_masker batch3 cpu true).
Proof.
  apply (model_step_preserves_parameters fst).
  - intros t [p calls]. reflexivity.
  - intros a b [p calls]. reflexivity.
  - intros t [p calls]. reflexivity.
Defined.

(** C10 as written fails on a float input: the zero mask is float32 too,
    torch refuses it as an index, and no loss is computed. *)
Lemma no_masking_float_input_index_error :
  t_dtype (zeros_like X3_float) = torch_float32 /\
  getitem X3_float (zeros_like X3_float) = Raise IndexError /\
  model_step identity_net mse (fixed_masker mask3) batch3_float cpu false tt
    = (Raise IndexError, tt).
Proof. repeat split; reflexivity. Qed.

Lemma model_step_no_masking_integer_indexing_witness :
  exists input target,
    getitem (to_dtype torch_float32 X3) (zeros_like X3) = Ok input /\
    data input = [3; 3; 3] /\
    getitem X3 (zeros_like X3) = Ok target /\
    data target = [3; 3; 3] /\
    (0 < length (data target))%nat.
Proof.
  destruct (model_step_no_masking_integer_indexing (Aux:=unit)
              identity_net mse (fixed_masker mask3) X3 rate3 tt tt cpu tt tt
              (Finite (0 # 3)) (to_dtype torch_float32 X3) X3 (zeros_like X3)
              rate3 (or_intror eq_refl) eq_refl)
    as (_ & _ & _ & [] & input & target & np & restp & Hsp & Hin & _ & _
        & Hdin & Htg & _ & _ & Hdtg & Hlen & _).
  inversion Hsp; subst np restp.
  exists input, target.
  split; [exact Hin|]. split; [exact Hdin|].
  split; [exact Htg|]. split; [exact Hdtg|].
  apply Hlen. reflexivity.
Defined.

Lemma log_metrics_loss_from_module_scope_witness :
  exists r rest,
    log_metrics toy_sqrt toy_globals preds3 X3 mask3 "val" 7 toy_writer
    = (r, Writer "Learning_rate=0.001"
            (add_scalar "val/loss" (Finite 9) 7 :: rest)).
Proof.
  apply (proj1 (log_metrics_loss_from_module_scope toy_sqrt toy_globals
                  preds3 X3 mask3 "val" 7 toy_writer 1 eq_refl
                  (proj1 (Qle_bool_iff 0 1) eq_refl))
               (Finite 9) eq_refl).
Defined.

Lemma log_metrics_unbound_loss_writes_nothing_witness :
  log_metrics toy_sqrt no_globals preds3 X3 mask3 "val" 7 toy_writer
  = (Raise (NameError "loss"), toy_writer).
Proof.
  apply (log_metrics_unbound_loss_writes_nothing toy_sqrt no_globals
           preds3 X3 mask3 "val" 7 toy_writer).
  - discriminate.
  - repeat constructor; apply Qle_bool_iff; reflexivity.
  - reflexivity.
Defined.


(** ** The further properties at concrete inputs *)

Lemma model_step_rejects_empty_batch_witness :
  model_step identity_net mse first_masker (X_empty, X_empty, tt, tt) cpu
             false tt
    = (Raise (AssertionError L24_mask_fraction ""), tt) /\
  exists site,
    model_step identity_net mse first_masker (X_empty, X_empty, tt, tt) cpu
               true tt
      = (Raise (AssertionError site ""), tt) /\
    (site = L23_shape \/ site = L24_mask_fraction).
Proof.
  destruct (model_step_rejects_empty_batch (Aux:=unit) identity_net mse
              first_masker X_empty X_empty tt tt cpu tt eq_refl) as [H1 H2].
  split; [exact H1|].
  apply (H2 (Tensor torch_bool cpu [0%nat] []) tt); reflexivity.
Defined.

Lemma model_step_no_masking_refused_dtype_witness :
  model_step identity_net mse (fixed_masker mask3) batch3_float cpu false tt
    = (Raise IndexError, tt) /\
  exists e, (Raise IndexError : result step_result) = Raise e.
Proof.
  split; [reflexivity|].
  apply (model_step_no_masking_refused_dtype (Aux:=unit) identity_net mse
           (fixed_masker mask3) X3_float rate3 tt tt cpu tt
           (or_introl eq_refl) (Raise IndexError) tt).
  reflexivity.
Defined.


Lemma model_step_no_masking_scores_first_row_witness :
  exists loss,
    model_step identity_net mse (fixed_masker mask3) (X22, rate22, tt, tt)
               cpu false tt
      = (Ok (loss, Tensor torch_float32 cpu [2%nat; 2%nat] [3; 1; 2; 5],
             X22, zeros_like X22, rate22), tt) /\
    model_step first_row_net mse (fixed_masker mask3) (X22, rate22, tt, tt)
               cpu false tt
      = (Ok (loss, Tensor torch_float32 cpu [2%nat; 2%nat] [3; 1; 7; 7],
             X22, zeros_like X22, rate22), tt).
Proof.
  eexists. split; [reflexivity|].
  apply (model_step_no_masking_scores_first_row (Aux:=unit)
           identity_net first_row_net mse (fixed_masker mask3) X22 rate22
           tt tt cpu tt tt tt
           (Tensor torch_float32 cpu [2%nat; 2%nat] [3; 1; 2; 5])
           (Tensor torch_float32 cpu [2%nat; 2%nat] [3; 1; 7; 7]));
    try reflexivity.
  right. reflexivity.
Defined.

Lemma model_step_hides_masked_values_witness :
  exists t w1 w2,
    identity_net (W:=unit) t w1 = (Ok preds3, w2) /\
    t_dtype t = torch_float32 /\ t_device t = cpu /\ shape t = shape X3 /\
    forall i m x,
      data mask3 !! i = Some m -> data X3 !! i = Some x ->
      exists v, data t !! i = Some v /\
                (m == 1 -> v == 0) /\
                (m == 0 ->
                 (exists n : Z, (Z.abs n < 2 ^ 24)%Z /\ x == inject_Z n) ->
                 v == x).
Proof.
  apply (model_step_hides_masked_values (Aux:=unit) identity_net mse
           (fixed_masker mask3) X3 rate3 tt tt cpu true tt tt (Finite 9)
           preds3 X3 mask3 rate3).
  reflexivity.
Defined.

Lemma masked_sum_assertion_iff_witness :
  Qle_bool (tsum (mask_input X3_negative mask3)) (tsum X3_negative) = true
  <-> 0 <= Qsum (zip_with Qmult (data X3_negative) (data mask3)).
Proof.
  apply (masked_sum_assertion_iff X3_negative mask3).
  - reflexivity.
  - repeat (constructor; [eexists; reflexivity|]). constructor.
  - apply Qlt_bool_iff. reflexivity.
  - constructor; [right; reflexivity|].
    constructor; [left; reflexivity|].
    constructor; [left; reflexivity|constructor].
Defined.

Lemma log_metrics_negative_targets_witness :
  log_metrics toy_sqrt toy_globals preds3 X3_negative mask3 "val" 7 toy_writer
  = (Raise (AssertionError L38_targets "Negative targets"), toy_writer).
Proof.
  apply (log_metrics_negative_targets toy_sqrt toy_globals preds3 X3_negative
           mask3 "val" 7 toy_writer).
  apply Exists_cons_tl, Exists_cons_hd. apply Qlt_bool_iff. reflexivity.
Defined.

Lemma log_metrics_writes_six_witness :
  exists mean_preds std_preds mean_targets std_targets mean_mask,
    tmean preds3 = Ok mean_preds /\
    tstd toy_sqrt preds3 = Ok std_preds /\
    tmean (to_dtype torch_float32 X3) = Ok mean_targets /\
    tstd toy_sqrt (to_dtype torch_float32 X3) = Ok std_targets /\
    tmean (to_dtype torch_float32 mask3) = Ok mean_mask /\
    log_metrics toy_sqrt toy_globals preds3 X3 mask3 "val" 7 toy_writer
    = (Ok tt,
       Writer "Learning_rate=0.001"
         [add_scalar "val/loss" (Finite 9) 7;
          add_scalar "val/mean_preds" mean_preds 7;
          add_scalar "val/std_preds" std_preds 7;
          add_scalar "val/mean_targets" mean_targets 7;
          add_scalar "val/std_targets" std_targets 7;
          add_scalar "val/mean_mask" mean_mask 7]).
Proof.
  apply (log_metrics_writes_six toy_sqrt toy_globals (Finite 9) preds3 X3
           mask3 "val" 7 toy_writer).
  - discriminate.
  - repeat constructor; apply Qle_bool_iff; reflexivity.
  - reflexivity.
  - reflexivity.
Defined.


Lemma loop_log_metrics_finds_loss_witness :
  exists rest,
    events (logger (snd (call_log_metrics toy_sqrt "train" 0
                           (snd (bind_step (Finite 9, preds3, X3, mask3, rate3)
                                           toy_start)))))
    = events (logger toy_start) ++ add_scalar "train/loss" (Finite 9) 0 :: rest.
Proof.
  apply (proj2 (loop_log_metrics_finds_loss toy_sqrt
                  (Finite 9, preds3, X3, mask3, rate3) "train" 0 toy_start
                  _ (Ok tt) eq_refl)).
  reflexivity.
Defined.

Lemma refused_validation_dtype_never_checkpoints_witness :
  files (snd (toy_run_on [batch3] [batch3_float] 2 toy_start))
  = files toy_start /\
  ((0 < 2)%nat ->
   exists e, fst (toy_run_on [batch3] [batch3_float] 2 toy_start) = Raise e).
Proof.
  apply (refused_validation_dtype_never_checkpoints (Aux:=unit) identity_net
           (ret tt) (ret tt) (fun w => w) first_masker (ret [batch3])
           (ret [batch3_float]) (ret tt) toy_optimizer_step (fun _ => ret tt)
           (ret tt) (ret tt) toy_r2 toy_sqrt cpu).
  - intros w bs w' H. inversion H.
    exists X3_float, rate3, tt, tt, []. split; [reflexivity|].
    left. reflexivity.
  - vm_compute. reflexivity.
Defined.

Lemma val_batch_preserves_parameters_witness :
  preserves (fun st : @script (Q * nat) nat => fst (world st)) toy_val_batch.
Proof.
  apply (val_batch_preserves_parameters (Aux:=unit) scaling_net first_masker
           toy_r2 toy_sqrt cpu fst 0 1 0 batch3).
  - intros t [p calls]. reflexivity.
  - intros t [p calls]. reflexivity.
Defined.
